(** * dbcli: credential persistence and secure transfer

    A shallow embedding of [src/helpers/crypto.ts], [src/helpers/keychain.ts]
    and [src/core/config-manager.ts], together with the parts of the
    JavaScript runtime these files call into (strings as UTF-16 code units,
    [Buffer]s of octets, the base64 and utf8 encodings, [JSON], zod schemas).

    Layout: runtime data and encodings first, then the three source modules,
    then the properties. *)

From Stdlib Require Import NArith ZArith Ascii List Bool Lia.
From Stdlib Require String.
Import String.StringSyntax.
Delimit Scope string_scope with string.
From stdpp Require Import base option list countable gmap.
Import ListNotations.

Local Open Scope N_scope.

(** ** Runtime data *)

(** An octet of a [Buffer]; [Ascii b0 .. b7] has [b0] as least significant bit. *)
Definition octet := ascii.
Abbreviation Buffer := (list octet).

(** A JavaScript string is a sequence of UTF-16 code units. *)
Abbreviation jsstring := (list N).

Definition unit_of_ascii (a : ascii) : N := N_of_ascii a.

Fixpoint js (s : String.string) : jsstring :=
  match s with
  | String.EmptyString => []
  | String.String a r => unit_of_ascii a :: js r
  end.

Arguments js s%_string.

Definition unit_eqb (a b : N) : bool := N.eqb a b.

Fixpoint jsstring_eqb (a b : jsstring) : bool :=
  match a, b with
  | [], [] => true
  | x :: a', y :: b' => unit_eqb x y && jsstring_eqb a' b'
  | _, _ => false
  end.

(** [String.prototype.startsWith] *)
Fixpoint startsWith (s prefix : jsstring) {struct prefix} : bool :=
  match prefix with
  | [] => true
  | p :: prefix' =>
      match s with
      | c :: s' => unit_eqb c p && startsWith s' prefix'
      | [] => false
      end
  end.

(** [s.substring(n)] for [0 <= n]. *)
Definition substring (s : jsstring) (n : nat) : jsstring := drop n s.

(** [s.split(sep)] for a separator of one code unit: the pieces between the
    occurrences of [sep], always at least one piece. *)
Fixpoint split (sep : N) (s : jsstring) : list jsstring :=
  match s with
  | [] => [[]]
  | c :: r =>
      if unit_eqb c sep then [] :: split sep r
      else match split sep r with
           | piece :: pieces => (c :: piece) :: pieces
           | [] => [[c]]
           end
  end.

Definition COLON : N := 58.

(** ** base64 ([Buffer.prototype.toString('base64')], [Buffer.from(s, 'base64')]) *)

Module Base64.

(** Six bits, most significant first. *)
Definition sextet : Type := bool * bool * bool * bool * bool * bool.

Definition sextet_index (s : sextet) : N :=
  let '(b5, b4, b3, b2, b1, b0) := s in
  32 * N.b2n b5 + 16 * N.b2n b4 + 8 * N.b2n b3
  + 4 * N.b2n b2 + 2 * N.b2n b1 + N.b2n b0.

Definition index_sextet (n : N) : sextet :=
  (N.testbit n 5, N.testbit n 4, N.testbit n 3,
   N.testbit n 2, N.testbit n 1, N.testbit n 0).

(** The standard alphabet [A-Za-z0-9+/]. *)
Definition alphabet (s : sextet) : N :=
  let i := sextet_index s in
  if i <? 26 then 65 + i
  else if i <? 52 then 97 + (i - 26)
  else if i <? 62 then 48 + (i - 52)
  else if i =? 62 then 43
  else 47.

Definition PAD : N := 61.

(** Decoding accepts the standard and the URL-safe alphabet. *)
Definition unbase64 (c : N) : option sextet :=
  if (65 <=? c) && (c <=? 90) then Some (index_sextet (c - 65))
  else if (97 <=? c) && (c <=? 122) then Some (index_sextet (c - 97 + 26))
  else if (48 <=? c) && (c <=? 57) then Some (index_sextet (c - 48 + 52))
  else if (c =? 43) || (c =? 45) then Some (index_sextet 62)
  else if (c =? 47) || (c =? 95) then Some (index_sextet 63)
  else None.

Fixpoint to_sextets (b : Buffer) : list sextet :=
  match b with
  | [] => []
  | Ascii a0 a1 a2 a3 a4 a5 a6 a7 :: r =>
      match r with
      | [] =>
          [ (a7, a6, a5, a4, a3, a2); (a1, a0, false, false, false, false) ]
      | Ascii b0 b1 b2 b3 b4 b5 b6 b7 :: r' =>
          match r' with
          | [] =>
              [ (a7, a6, a5, a4, a3, a2); (a1, a0, b7, b6, b5, b4);
                (b3, b2, b1, b0, false, false) ]
          | Ascii c0 c1 c2 c3 c4 c5 c6 c7 :: r'' =>
              (a7, a6, a5, a4, a3, a2) :: (a1, a0, b7, b6, b5, b4)
              :: (b3, b2, b1, b0, c7, c6) :: (c5, c4, c3, c2, c1, c0)
              :: to_sextets r''
          end
      end
  end.

Fixpoint padding (b : Buffer) : jsstring :=
  match b with
  | [] => []
  | [_] => [PAD; PAD]
  | [_; _] => [PAD]
  | _ :: _ :: _ :: r => padding r
  end.

Definition encode (b : Buffer) : jsstring :=
  map alphabet (to_sextets b) ++ padding b.

(** The sextets of the input up to the first padding character; characters
    outside the alphabet are skipped. *)
Fixpoint scan (s : jsstring) : list sextet :=
  match s with
  | [] => []
  | c :: r =>
      if c =? PAD then []
      else match unbase64 c with
           | Some x => x :: scan r
           | None => scan r
           end
  end.

Fixpoint of_sextets (l : list sextet) : Buffer :=
  match l with
  | (a7, a6, a5, a4, a3, a2) :: r =>
      match r with
      | [] => []
      | (a1, a0, b7, b6, b5, b4) :: r' =>
          match r' with
          | [] => [Ascii a0 a1 a2 a3 a4 a5 a6 a7]
          | (b3, b2, b1, b0, c7, c6) :: r'' =>
              match r'' with
              | [] => [Ascii a0 a1 a2 a3 a4 a5 a6 a7;
                       Ascii b0 b1 b2 b3 b4 b5 b6 b7]
              | (c5, c4, c3, c2, c1, c0) :: r''' =>
                  Ascii a0 a1 a2 a3 a4 a5 a6 a7
                  :: Ascii b0 b1 b2 b3 b4 b5 b6 b7
                  :: Ascii c0 c1 c2 c3 c4 c5 c6 c7 :: of_sextets r'''
              end
          end
      end
  | [] => []
  end.

Definition decode (s : jsstring) : Buffer := of_sextets (scan s).

End Base64.

(** ** utf8 (the ['utf8'] encoding of [Cipher.update], [Decipher.update],
    [readFileSync] and [writeFileSync]) *)

Module Utf8.

Definition byte (n : N) : octet := ascii_of_N n.
Definition val (x : octet) : N := N_of_ascii x.

Definition is_high (u : N) : bool := (0xD800 <=? u) && (u <=? 0xDBFF).
Definition is_low (u : N) : bool := (0xDC00 <=? u) && (u <=? 0xDFFF).

(** U+FFFD, emitted for whatever cannot be encoded or decoded. *)
Definition REPLACEMENT : N := 0xFFFD.

Definition encode_scalar (cp : N) : Buffer :=
  if cp <? 0x80 then [byte cp]
  else if cp <? 0x800 then [byte (0xC0 + cp / 64); byte (0x80 + cp mod 64)]
  else if cp <? 0x10000 then
    [byte (0xE0 + cp / 4096); byte (0x80 + (cp / 64) mod 64);
     byte (0x80 + cp mod 64)]
  else
    [byte (0xF0 + cp / 262144); byte (0x80 + (cp / 4096) mod 64);
     byte (0x80 + (cp / 64) mod 64); byte (0x80 + cp mod 64)].

(** A surrogate pair is one scalar value; an unpaired surrogate is encoded
    as U+FFFD. *)
Fixpoint encode (s : jsstring) : Buffer :=
  match s with
  | [] => []
  | u :: r =>
      if is_high u then
        match r with
        | v :: r' =>
            if is_low v then
              encode_scalar (0x10000 + (u - 0xD800) * 0x400 + (v - 0xDC00))
              ++ encode r'
            else encode_scalar REPLACEMENT ++ encode r
        | [] => encode_scalar REPLACEMENT
        end
      else if is_low u then encode_scalar REPLACEMENT ++ encode r
      else encode_scalar u ++ encode r
  end.

Definition units_of_scalar (cp : N) : jsstring :=
  if cp <? 0x10000 then [cp]
  else [0xD800 + (cp - 0x10000) / 0x400; 0xDC00 + (cp - 0x10000) mod 0x400].

Definition between (lo hi : N) (x : octet) : bool :=
  (lo <=? val x) && (val x <=? hi).

Definition cont (x : octet) : N := val x - 0x80.

(** Decoding replaces every ill-formed subsequence by U+FFFD and resumes at
    the octet that did not fit. *)
Definition decode_step (decode : Buffer -> jsstring) (x : octet) (r : Buffer)
  : jsstring :=
  let b1 := val x in
      if b1 <? 0x80 then b1 :: decode r
      else if between 0xC2 0xDF x then
        match r with
        | y :: r1 =>
            if between 0x80 0xBF y then
              units_of_scalar ((b1 - 0xC0) * 64 + cont y) ++ decode r1
            else REPLACEMENT :: decode r
        | [] => [REPLACEMENT]
        end
      else if between 0xE0 0xEF x then
        match r with
        | y :: r1 =>
            if between (if b1 =? 0xE0 then 0xA0 else 0x80)
                       (if b1 =? 0xED then 0x9F else 0xBF) y then
              match r1 with
              | z :: r2 =>
                  if between 0x80 0xBF z then
                    units_of_scalar
                      ((b1 - 0xE0) * 4096 + cont y * 64 + cont z)
                    ++ decode r2
                  else REPLACEMENT :: decode r1
              | [] => [REPLACEMENT]
              end
            else REPLACEMENT :: decode r
        | [] => [REPLACEMENT]
        end
      else if between 0xF0 0xF4 x then
        match r with
        | y :: r1 =>
            if between (if b1 =? 0xF0 then 0x90 else 0x80)
                       (if b1 =? 0xF4 then 0x8F else 0xBF) y then
              match r1 with
              | z :: r2 =>
                  if between 0x80 0xBF z then
                    match r2 with
                    | w :: r3 =>
                        if between 0x80 0xBF w then
                          units_of_scalar
                            ((b1 - 0xF0) * 262144 + cont y * 4096
                             + cont z * 64 + cont w)
                          ++ decode r3
                        else REPLACEMENT :: decode r2
                    | [] => [REPLACEMENT]
                    end
                  else REPLACEMENT :: decode r1
              | [] => [REPLACEMENT]
              end
            else REPLACEMENT :: decode r
        | [] => [REPLACEMENT]
        end
      else REPLACEMENT :: decode r.


Fixpoint decode (b : Buffer) : jsstring :=
  match b with
  | [] => []
  | x :: r => decode_step decode x r
  end.

(** Well-formed UTF-16: every surrogate is half of a pair. *)
Fixpoint well_formed (s : jsstring) : bool :=
  match s with
  | [] => true
  | u :: r =>
      if is_high u then
        match r with
        | v :: r' => is_low v && well_formed r'
        | [] => false
        end
      else negb (is_low u) && (u <? 0x10000) && well_formed r
  end.

End Utf8.

(** ** Values, exceptions and the runtime interface *)

(** What [JSON.parse] can return. Numbers are the integers; an object is its
    own properties in insertion order. *)
#[warnings="-register-all"]
Inductive JsValue : Type :=
| JNull
| JBool (b : bool)
| JNum (n : Z)
| JStr (s : jsstring)
| JArr (items : list JsValue)
| JObj (fields : list (jsstring * JsValue)).

(** Thrown values, by constructor. [Error] is a plain [new Error(message)];
    [EncryptedFileError] is the class of crypto.ts; [SyntaxError] comes from
    [JSON.parse], [TypeError] from reading a property of [null], [ZodError]
    from a schema's [parse], [CryptoError] from node:crypto and [SystemError]
    from node:fs. *)
Inductive Exn : Type :=
| Error (message : jsstring)
| EncryptedFileError (message : jsstring)
| SyntaxError (message : jsstring)
| TypeError (message : jsstring)
| ZodError
| CryptoError (message : jsstring)
| SystemError (code : jsstring).

Inductive Completion (A : Type) : Type :=
| Return (a : A)
| Throw (e : Exn).
Arguments Return {A} a.
Arguments Throw {A} e.

Definition bind {A B} (c : Completion A) (k : A -> Completion B) : Completion B :=
  match c with
  | Return a => k a
  | Throw e => Throw e
  end.

Declare Scope completion_scope.
Delimit Scope completion_scope with completion.
Notation "'let*' x ':=' c 'in' k" := (bind c (fun x => k))
  (at level 10, x name, c at level 100, k at level 200) : completion_scope.

Fixpoint traverse {A B} (f : A -> Completion B) (l : list A) : Completion (list B) :=
  match l with
  | [] => Return []
  | a :: r => bind (f a) (fun b => bind (traverse f r) (fun bs => Return (b :: bs)))
  end.

Fixpoint lookup_field (k : jsstring) (fields : list (jsstring * JsValue))
  : option JsValue :=
  match fields with
  | [] => None
  | (k', v) :: r => if jsstring_eqb k' k then Some v else lookup_field k r
  end.

(** [v.key]: [None] is [undefined]; reading a property of [null] throws. *)
Definition get_property (v : JsValue) (k : jsstring) : Completion (option JsValue) :=
  match v with
  | JNull => Throw (TypeError (js "Cannot read properties of null"))
  | JObj fields => Return (lookup_field k fields)
  | _ => Return None
  end.

(** ToBoolean *)
Definition truthy (v : JsValue) : bool :=
  match v with
  | JNull => false
  | JBool b => b
  | JNum n => negb (Z.eqb n 0)
  | JStr s => negb (jsstring_eqb s [])
  | JArr _ | JObj _ => true
  end.

Definition truthy_string (s : jsstring) : bool := negb (jsstring_eqb s []).

(** Values whose objects have pairwise distinct keys, none starting with a
    digit: on these an association list in insertion order is the object. *)
Definition key_ok (k : jsstring) : bool :=
  match k with
  | c :: _ => negb ((48 <=? c) && (c <=? 57))
  | [] => true
  end.

Fixpoint distinct (ks : list jsstring) : bool :=
  match ks with
  | [] => true
  | k :: r => negb (existsb (jsstring_eqb k) r) && distinct r
  end.

Fixpoint plain (v : JsValue) : bool :=
  match v with
  | JArr items => forallb plain items
  | JObj fields =>
      forallb key_ok (map fst fields) && distinct (map fst fields)
      && forallb (fun kv => plain (snd kv)) fields
  | _ => true
  end.

(** The built-ins the source calls and this development does not implement:
    [JSON] and the primitives of node:crypto. [cipher algo key iv data] is
    [createCipheriv(algo, key, iv)] followed by [update(data)] and [final()],
    [decipher] likewise. *)
Class Runtime : Type := {
  JSON_parse : jsstring -> Completion JsValue;
  JSON_stringify : JsValue -> N -> jsstring;
  pbkdf2Sync : jsstring -> Buffer -> N -> nat -> jsstring -> Buffer;
  cipher : jsstring -> Buffer -> Buffer -> Buffer -> Completion Buffer;
  decipher : jsstring -> Buffer -> Buffer -> Buffer -> Completion Buffer;
}.

(** Entropy read by [randomBytes]: an unbounded tape of octets. *)
Definition Entropy : Type := nat -> octet.

Definition randomBytes (n : nat) (e : Entropy) : Buffer * Entropy :=
  (map e (seq 0 n), fun i => e (n + i)%nat).

(** ** src/helpers/crypto.ts *)

Definition MSG_PREFIX : jsstring := js "ENC:".
Definition SALT_LEN : nat := 16.
Definition IV_LEN : nat := 16.
Definition KEY_LEN : nat := 32.
Definition ITERATIONS : N := 100000.
Definition ALGO : jsstring := js "sha256".
Definition CIPHER_ALGO : jsstring := js "aes-256-cbc".

Definition EncryptedFileError_new : Exn := EncryptedFileError (js "File is encrypted").

Section Crypto.
Context {rt : Runtime}.
Local Open Scope completion_scope.

(** [encrypt]: returns ["ENC:salt:iv:encrypted_base64"]. The two
    [randomBytes] calls read the entropy tape. *)
Definition encrypt (data password : jsstring) (e : Entropy)
  : Completion jsstring * Entropy :=
  let '(salt, e1) := randomBytes SALT_LEN e in
  let '(iv, e2) := randomBytes IV_LEN e1 in
  let key := pbkdf2Sync password salt ITERATIONS KEY_LEN ALGO in
  (let* encrypted := cipher CIPHER_ALGO key iv (Utf8.encode data) in
   Return (MSG_PREFIX ++ Base64.encode salt ++ [COLON] ++ Base64.encode iv
           ++ [COLON] ++ Base64.encode encrypted),
   e2).

Definition Invalid_encrypted_format : Exn := Error (js "Invalid encrypted format").

Definition decrypt (encryptedString password : jsstring) : Completion jsstring :=
  if negb (startsWith encryptedString MSG_PREFIX) then
    Throw Invalid_encrypted_format
  else
    let parts := split COLON (substring encryptedString (length MSG_PREFIX)) in
    match parts with
    | [saltB64; ivB64; encryptedData] =>
        let salt := Base64.decode saltB64 in
        let iv := Base64.decode ivB64 in
        let key := pbkdf2Sync password salt ITERATIONS KEY_LEN ALGO in
        let* decrypted :=
          decipher CIPHER_ALGO key iv (Base64.decode encryptedData) in
        Return (Utf8.decode decrypted)
    | _ => Throw Invalid_encrypted_format
    end.

End Crypto.

(** ** src/interfaces/index.ts: the zod schemas *)

Inductive DbType : Type := postgres.

Definition DbType_tag (t : DbType) : jsstring :=
  match t with postgres => js "postgres" end.

(** [DbConfig = z.infer<typeof DbConfigSchema>] *)
Record DbConfig : Type := {
  id : jsstring;
  name : jsstring;
  type : DbType;
  host : jsstring;
  port : Z;
  user : jsstring;
  password : jsstring;
  database : jsstring;
  ssl : bool;
  verbose : bool;
  group : option jsstring;
}.

(** [{ ...c, password: p }] *)
Definition with_password (c : DbConfig) (p : jsstring) : DbConfig :=
  {| id := id c; name := name c; type := type c; host := host c;
     port := port c; user := user c; password := p; database := database c;
     ssl := ssl c; verbose := verbose c; group := group c |}.

(** The object a [DbConfig] is at run time, as [JSON.stringify] sees it: an
    [undefined] group is no property. *)
Definition toJs (c : DbConfig) : JsValue :=
  JObj ([ (js "id", JStr (id c)); (js "name", JStr (name c));
          (js "type", JStr (DbType_tag (type c))); (js "host", JStr (host c));
          (js "port", JNum (port c)); (js "user", JStr (user c));
          (js "password", JStr (password c));
          (js "database", JStr (database c)); (js "ssl", JBool (ssl c));
          (js "verbose", JBool (verbose c)) ]
        ++ match group c with
           | Some g => [ (js "group", JStr g) ]
           | None => []
           end).

Module z.
(** A schema reads the value found under a key, [None] for [undefined].
    The issues a [ZodError] lists are not modelled. *)
Definition schema (A : Type) : Type := option JsValue -> Completion A.

Definition string : schema jsstring := fun v =>
  match v with Some (JStr s) => Return s | _ => Throw ZodError end.

Definition number : schema Z := fun v =>
  match v with Some (JNum n) => Return n | _ => Throw ZodError end.

Definition boolean : schema bool := fun v =>
  match v with Some (JBool b) => Return b | _ => Throw ZodError end.

Definition default {A} (s : schema A) (d : A) : schema A := fun v =>
  match v with None => Return d | Some _ => s v end.

Definition optional {A} (s : schema A) : schema (option A) := fun v =>
  match v with None => Return None | Some _ => bind (s v) (fun a => Return (Some a)) end.

Definition array {A} (s : schema A) : schema (list A) := fun v =>
  match v with
  | Some (JArr items) => traverse (fun i => s (Some i)) items
  | _ => Throw ZodError
  end.
End z.

Local Open Scope completion_scope.

(** [z.enum(['postgres'])] *)
Definition DbTypeSchema : z.schema DbType := fun v =>
  match v with
  | Some (JStr s) =>
      if jsstring_eqb s (js "postgres") then Return postgres else Throw ZodError
  | _ => Throw ZodError
  end.

(** [z.object({...})]: unknown keys are dropped, defaults filled in. *)
Definition DbConfigSchema : z.schema DbConfig := fun v =>
  match v with
  | Some (JObj o) =>
      let* id_ := z.string (lookup_field (js "id") o) in
      let* name_ := z.string (lookup_field (js "name") o) in
      let* type_ := DbTypeSchema (lookup_field (js "type") o) in
      let* host_ := z.string (lookup_field (js "host") o) in
      let* port_ := z.number (lookup_field (js "port") o) in
      let* user_ := z.string (lookup_field (js "user") o) in
      let* password_ := z.default z.string [] (lookup_field (js "password") o) in
      let* database_ := z.string (lookup_field (js "database") o) in
      let* ssl_ := z.default z.boolean false (lookup_field (js "ssl") o) in
      let* verbose_ := z.default z.boolean false (lookup_field (js "verbose") o) in
      let* group_ := z.optional z.string (lookup_field (js "group") o) in
      Return {| id := id_; name := name_; type := type_; host := host_;
                port := port_; user := user_; password := password_;
                database := database_; ssl := ssl_; verbose := verbose_;
                group := group_ |}
  | _ => Throw ZodError
  end.

(** [schema.parse(value)] *)
Definition parse {A} (s : z.schema A) (value : JsValue) : Completion A :=
  s (Some value).

(** ** The host: file system, [Bun.secrets], log *)

Inductive Event : Type :=
| SecretsSet (name value : jsstring)
| SecretsGet (name : jsstring)
| SecretsDelete (name : jsstring)
| FsWrite (path data : jsstring) (mode : N)
| LogError (context : jsstring) (error : Exn).

(** The fields of the [ConfigManager] instance ([configPath], [configs]) and
    of the host it runs on. [secrets] is [None] when [Bun.secrets] is not
    there; it holds the entries of service [SERVICE_NAME] by account, and a
    call to an API that is there is taken to succeed.
    [writable] says whether [writeFileSync] succeeds. [events] records the
    calls that reach the host, oldest first. *)
Record State : Type := {
  configPath : jsstring;
  configs : list DbConfig;
  files : gmap jsstring Buffer;
  writable : bool;
  secrets : option (gmap jsstring jsstring);
  entropy : Entropy;
  clock : jsstring;
  events : list Event;
}.

Definition set_configPath (p : jsstring) (s : State) : State :=
  {| configPath := p; configs := configs s; files := files s;
     writable := writable s; secrets := secrets s; entropy := entropy s;
     clock := clock s; events := events s |}.

Definition set_configs (cs : list DbConfig) (s : State) : State :=
  {| configPath := configPath s; configs := cs; files := files s;
     writable := writable s; secrets := secrets s; entropy := entropy s;
     clock := clock s; events := events s |}.

Definition set_files (fs : gmap jsstring Buffer) (s : State) : State :=
  {| configPath := configPath s; configs := configs s; files := fs;
     writable := writable s; secrets := secrets s; entropy := entropy s;
     clock := clock s; events := events s |}.

Definition set_secrets (m : gmap jsstring jsstring) (s : State) : State :=
  {| configPath := configPath s; configs := configs s; files := files s;
     writable := writable s; secrets := Some m; entropy := entropy s;
     clock := clock s; events := events s |}.

Definition set_entropy (e : Entropy) (s : State) : State :=
  {| configPath := configPath s; configs := configs s; files := files s;
     writable := writable s; secrets := secrets s; entropy := e;
     clock := clock s; events := events s |}.

Definition emit (ev : Event) (s : State) : State :=
  {| configPath := configPath s; configs := configs s; files := files s;
     writable := writable s; secrets := secrets s; entropy := entropy s;
     clock := clock s; events := events s ++ [ev] |}.

(** Code that reads and writes the state and may throw. *)
Definition M (A : Type) : Type := State -> Completion A * State.

Definition ret {A} (a : A) : M A := fun s => (Return a, s).
Definition throw {A} (e : Exn) : M A := fun s => (Throw e, s).
Definition lift {A} (c : Completion A) : M A := fun s => (c, s).

Definition mbind {A B} (m : M A) (k : A -> M B) : M B := fun s =>
  match m s with
  | (Return a, s') => k a s'
  | (Throw e, s') => (Throw e, s')
  end.

(** [try { body } catch (e) { handler }] *)
Definition try_catch {A} (body : M A) (handler : Exn -> M A) : M A := fun s =>
  match body s with
  | (Return a, s') => (Return a, s')
  | (Throw e, s') => handler e s'
  end.

Declare Scope m_scope.
Delimit Scope m_scope with M.
Notation "'let!' x ':=' c 'in' k" := (mbind c (fun x => k))
  (at level 10, x name, c at level 100, k at level 200) : m_scope.
Notation "c ';;' k" := (mbind c (fun _ => k))
  (at level 100, k at level 200, right associativity) : m_scope.

Local Open Scope m_scope.

Definition when (b : bool) (m : M unit) : M unit := if b then m else ret tt.

Definition logError (context : jsstring) (error : Exn) : M unit := fun s =>
  (Return tt, emit (LogError context error) s).

Definition MODE_0600 : N := 384.

Definition existsSync (path : jsstring) : M bool := fun s =>
  (Return (bool_decide (is_Some (files s !! path))), s).

(** [readFileSync(path, 'utf-8')] *)
Definition readFileSync (path : jsstring) : M jsstring := fun s =>
  match files s !! path with
  | Some b => (Return (Utf8.decode b), s)
  | None => (Throw (SystemError (js "ENOENT")), s)
  end.

(** [writeFileSync(path, data, { mode })]: the whole file is replaced. *)
Definition writeFileSync (path data : jsstring) (mode : N) : M unit := fun s =>
  let s' := emit (FsWrite path data mode) s in
  if writable s then
    (Return tt, set_files (<[path := Utf8.encode data]> (files s')) s')
  else (Throw (SystemError (js "EACCES")), s').

(** ** src/helpers/keychain.ts *)

Module KeychainHelper.

Definition setPassword (account password : jsstring) : M bool := fun s =>
  match secrets s with
  | None =>
      (Return false,
       emit (LogError (js "Failed to save password to keychain")
               (Error (js "Bun.secrets API is not available"))) s)
  | Some m =>
      (Return true,
       set_secrets (<[account := password]> m) (emit (SecretsSet account password) s))
  end.

(** [secret || null]: an empty secret reads as absent. *)
Definition getPassword (account : jsstring) : M (option jsstring) := fun s =>
  match secrets s with
  | None => (Return None, s)
  | Some m =>
      (Return match m !! account with
              | Some secret => if truthy_string secret then Some secret else None
              | None => None
              end,
       emit (SecretsGet account) s)
  end.

Definition deletePassword (account : jsstring) : M bool := fun s =>
  match secrets s with
  | None => (Return false, s)
  | Some m =>
      (Return (bool_decide (is_Some (m !! account))),
       set_secrets (delete account m) (emit (SecretsDelete account) s))
  end.

End KeychainHelper.

(** ** src/core/config-manager.ts *)

(** [Array.prototype.findIndex], [None] for [-1]. *)
Fixpoint findIndex {A} (p : A -> bool) (l : list A) : option nat :=
  match l with
  | [] => None
  | a :: r => if p a then Some 0%nat else option_map S (findIndex p r)
  end.

(** [Array.prototype.find] *)
Fixpoint find {A} (p : A -> bool) (l : list A) : option A :=
  match l with
  | [] => None
  | a :: r => if p a then Some a else find p r
  end.

Definition CONFIG_FILE_NAME : jsstring := js "/.db-cli-config.json".

Section ConfigManager.
Context {rt : Runtime}.

(** [z.array(DbConfigSchema)] *)
Definition ConfigFileSchema : z.schema (list DbConfig) := z.array DbConfigSchema.

Definition push (c : DbConfig) : M unit := fun s =>
  (Return tt, set_configs (configs s ++ [c]) s).

Definition loadConfigRaw : M unit := fun s =>
  (let! present := existsSync (configPath s) in
   if negb present then ret tt
   else
     try_catch
       (let! fileContent := readFileSync (configPath s) in
        let! parsed := lift (JSON_parse fileContent) in
        let! loaded := lift (parse ConfigFileSchema parsed) in
        fun s' => (Return tt, set_configs loaded s'))
       (fun error =>
          logError (js "Error loading config") error ;;
          fun s' => (Return tt, set_configs [] s'))) s.

(** The body of the [for (const config of this.configs)] loop, profile by
    profile; [config.password = password] updates the profile in place. *)
Fixpoint hydrate (cs : list DbConfig) : M (list DbConfig) :=
  match cs with
  | [] => ret []
  | config :: r =>
      let! found := KeychainHelper.getPassword (id config) in
      let config' :=
        match found with
        | Some p => with_password config p
        | None => config
        end in
      let! r' := hydrate r in
      ret (config' :: r')
  end.

Definition loadPasswordsFromKeychain : M unit := fun s =>
  (let! cs := hydrate (configs s) in
   fun s' => (Return tt, set_configs cs s')) s.

(** The private constructor: [homedir] is what [os.homedir()] returns. *)
Definition ConfigManager_new (homedir : jsstring) : M unit := fun s =>
  loadConfigRaw
    (set_configs [] (set_configPath (homedir ++ CONFIG_FILE_NAME) s)).

Definition init : M unit := loadPasswordsFromKeychain.

Definition saveConfigRaw : M unit := fun s =>
  try_catch
    (let configsWithoutPasswords :=
       map (fun c => with_password c []) (configs s) in
     writeFileSync (configPath s)
       (JSON_stringify (JArr (map toJs configsWithoutPasswords)) 2)
       MODE_0600)
    (fun error => logError (js "Error saving config") error) s.

Definition getConfigs : M (list DbConfig) := fun s => (Return (configs s), s).

Definition getConfig (id_ : jsstring) : M (option DbConfig) := fun s =>
  (Return (find (fun c => jsstring_eqb (id c) id_) (configs s)), s).

(** [config] is the caller's value as it is at run time, whatever its
    declared type; once it has passed the schema it is used at type
    [DbConfig]. *)
Definition addConfig (config : JsValue) : M unit :=
  try_catch
    (let! c := lift (parse DbConfigSchema config) in
     when (truthy_string (password c))
       (let! _ := KeychainHelper.setPassword (id c) (password c) in ret tt) ;;
     push c ;;
     saveConfigRaw)
    (fun e =>
       logError (js "Invalid configuration, not saving") e ;;
       throw e).

Definition removeConfig (id_ : jsstring) : M unit :=
  (fun s =>
     (Return tt,
      set_configs (List.filter (fun c => negb (jsstring_eqb (id c) id_)) (configs s)) s)) ;;
  saveConfigRaw ;;
  let! _ := KeychainHelper.deletePassword id_ in
  ret tt.

Definition updateConfig (config : DbConfig) : M unit := fun s =>
  match findIndex (fun c => jsstring_eqb (id c) (id config)) (configs s) with
  | Some index =>
      (when (truthy_string (password config))
         (let! _ := KeychainHelper.setPassword (id config) (password config) in
          ret tt) ;;
       (fun s' => (Return tt, set_configs (<[index := config]> (configs s')) s')) ;;
       saveConfigRaw) s
  | None => (Return tt, s)
  end.

(** [{ version: 1, exportedAt, connections }] *)
Definition exportData (exportedAt : jsstring) (connections : list DbConfig)
  : JsValue :=
  JObj [ (js "version", JNum 1); (js "exportedAt", JStr exportedAt);
         (js "connections", JArr (map toJs connections)) ].

(** [encryptionPassword] is [None] when the argument is left out;
    [clock s] is what [new Date().toISOString()] returns. *)
Definition exportToFile (filePath : jsstring)
    (encryptionPassword : option jsstring) (includePlainPasswords : bool)
  : M unit := fun s =>
  let encrypting :=
    match encryptionPassword with
    | Some p => truthy_string p
    | None => false
    end in
  let configsToExport :=
    if negb encrypting && negb includePlainPasswords then
      map (fun c => with_password c []) (configs s)
    else configs s in
  let jsonContent := JSON_stringify (exportData (clock s) configsToExport) 2 in
  (let! finalContent :=
     match encryptionPassword with
     | Some p =>
         if truthy_string p then
           fun s' =>
             let '(r, e) := encrypt jsonContent p (entropy s') in
             (r, set_entropy e s')
         else ret jsonContent
     | None => ret jsonContent
     end in
   writeFileSync filePath finalContent MODE_0600) s.

(** The [for (const config of validated)] loop; the result is the number of
    profiles pushed, added to [imported]. *)
Fixpoint import_loop (validated : list DbConfig) (imported : nat) : M nat :=
  match validated with
  | [] => ret imported
  | config :: r =>
      fun s =>
        match find (fun c => jsstring_eqb (id c) (id config)) (configs s) with
        | Some _ => import_loop r imported s
        | None =>
            (when (truthy_string (password config))
               (let! _ :=
                  KeychainHelper.setPassword (id config) (password config) in
                ret tt) ;;
             push config ;;
             import_loop r (S imported)) s
        end
  end.

(** [parsed.connections || parsed] *)
Definition connections_of (parsed : JsValue) : Completion JsValue :=
  bind (get_property parsed (js "connections")) (fun field =>
    Return match field with
           | Some v => if truthy v then v else parsed
           | None => parsed
           end).

Definition importFromFile (filePath : jsstring)
    (decryptionPassword : option jsstring) : M nat :=
  let! fileContent := readFileSync filePath in
  let! parsed :=
    try_catch (lift (JSON_parse fileContent))
      (fun e =>
         match decryptionPassword with
         | Some p =>
             if truthy_string p then
               try_catch
                 (let! decrypted := lift (decrypt fileContent p) in
                  lift (JSON_parse decrypted))
                 (fun _ => throw (Error (js "Invalid password or corrupted file")))
             else if startsWith fileContent (js "ENC:") then
               throw EncryptedFileError_new
             else throw e
         | None =>
             if startsWith fileContent (js "ENC:") then
               throw EncryptedFileError_new
             else throw e
         end) in
  let! connections := lift (connections_of parsed) in
  let! validated := lift (parse ConfigFileSchema connections) in
  let! imported := import_loop validated 0 in
  when (0 <? imported)%nat saveConfigRaw ;;
  ret imported.

End ConfigManager.

(** ** What is assumed of the runtime *)

(** [JSON.parse] undoes [JSON.stringify] on plain values; the text
    [JSON.stringify] produces is well-formed UTF-16 (unpaired surrogates are
    escaped); no JSON text starts with the sealed prefix; [pbkdf2Sync] returns
    [keylen] octets; with a key of [KEY_LEN] and an initialisation vector of
    [IV_LEN] octets the cipher runs and the decipher undoes it; whatever
    [decipher] throws comes from node:crypto. *)
Class RuntimeLaws (rt : Runtime) : Prop := {
  JSON_roundtrip : forall v indent,
    plain v = true -> JSON_parse (JSON_stringify v indent) = Return v;
  JSON_well_formed : forall v indent,
    Utf8.well_formed (JSON_stringify v indent) = true;
  JSON_not_sealed : forall text,
    startsWith text MSG_PREFIX = true -> exists e, JSON_parse text = Throw e;
  pbkdf2_length : forall password salt iterations keylen digest,
    length (pbkdf2Sync password salt iterations keylen digest) = keylen;
  cipher_decipher : forall key iv data,
    length key = KEY_LEN -> length iv = IV_LEN ->
    exists sealed,
      cipher CIPHER_ALGO key iv data = Return sealed
      /\ decipher CIPHER_ALGO key iv sealed = Return data;
  decipher_throws : forall algo key iv sealed e,
    decipher algo key iv sealed = Throw e -> exists m, e = CryptoError m;
}.

(** ** A small runtime

    An instance of the interface that can be run: values are numbered and the
    number is printed in binary; the cipher prepends key and vector to the
    data and the decipher checks and removes them. *)
Module Small.

Fixpoint to_tree (v : JsValue) : gen_tree (Z + jsstring) :=
  match v with
  | JNull => GenNode 0 []
  | JBool true => GenNode 1 []
  | JBool false => GenNode 2 []
  | JNum n => GenLeaf (inl n)
  | JStr s => GenLeaf (inr s)
  | JArr items => GenNode 3 (map to_tree items)
  | JObj fields =>
      GenNode 4 (map (fun kv => GenNode 5 [GenLeaf (inr (fst kv)); to_tree (snd kv)])
                   fields)
  end.

Fixpoint of_tree (t : gen_tree (Z + jsstring)) : JsValue :=
  match t with
  | GenLeaf (inl n) => JNum n
  | GenLeaf (inr s) => JStr s
  | GenNode 1 _ => JBool true
  | GenNode 2 _ => JBool false
  | GenNode 3 ts => JArr (map of_tree ts)
  | GenNode 4 ts =>
      JObj (map (fun t' =>
                   match t' with
                   | GenNode _ [GenLeaf (inr k); tv] => (k, of_tree tv)
                   | _ => ([], JNull)
                   end) ts)
  | GenNode _ _ => JNull
  end.

Fixpoint digits (p : positive) : jsstring :=
  match p with
  | xH => []
  | xO q => 48 :: digits q
  | xI q => 49 :: digits q
  end.

Fixpoint number (text : jsstring) : option positive :=
  match text with
  | [] => Some xH
  | c :: r =>
      if c =? 48 then option_map xO (number r)
      else if c =? 49 then option_map xI (number r)
      else None
  end.

Definition stringify (v : JsValue) (indent : N) : jsstring :=
  digits (encode (to_tree v)).

Definition parse_text (text : jsstring) : Completion JsValue :=
  match number text with
  | Some p =>
      match decode p with
      | Some t => Return (of_tree t)
      | None => Throw (SyntaxError (js "Unexpected end of JSON input"))
      end
  | None => Throw (SyntaxError (js "Unexpected token"))
  end.

Fixpoint buffer_eqb (a b : Buffer) : bool :=
  match a, b with
  | [], [] => true
  | x :: a', y :: b' => Ascii.eqb x y && buffer_eqb a' b'
  | _, _ => false
  end.

Definition derive (password : jsstring) (salt : Buffer) (iterations : N)
    (keylen : nat) (digest : jsstring) : Buffer :=
  take keylen (Utf8.encode password ++ salt ++ repeat zero keylen).

Definition seal (algo : jsstring) (key iv data : Buffer) : Completion Buffer :=
  Return (key ++ iv ++ data).

Definition unseal (algo : jsstring) (key iv sealed : Buffer) : Completion Buffer :=
  let n := (length key + length iv)%nat in
  if buffer_eqb (take n sealed) (key ++ iv) then Return (drop n sealed)
  else Throw (CryptoError (js "bad decrypt")).

Definition runtime : Runtime :=
  {| JSON_parse := parse_text;
     JSON_stringify := stringify;
     pbkdf2Sync := derive;
     cipher := seal;
     decipher := unseal |}.

End Small.

(** ** Vocabulary of the properties *)

(** The text [encrypt] assembles from salt, vector and ciphertext. *)
Definition envelope (salt iv encrypted : Buffer) : jsstring :=
  MSG_PREFIX ++ Base64.encode salt ++ [COLON] ++ Base64.encode iv
  ++ [COLON] ++ Base64.encode encrypted.

(** The salt and the vector a call of [encrypt] draws from the tape. *)
Definition nonce (e : Entropy) : Buffer * Buffer :=
  let '(salt, e1) := randomBytes SALT_LEN e in
  (salt, fst (randomBytes IV_LEN e1)).

(** The pieces [decrypt] finds after the prefix. *)
Definition parts_of (encryptedString : jsstring) : list jsstring :=
  split COLON (substring encryptedString (length MSG_PREFIX)).

(** The texts handed to [writeFileSync], oldest first. *)
Definition written (evs : list Event) : list jsstring :=
  flat_map (fun ev => match ev with FsWrite _ data _ => [data] | _ => [] end) evs.

(** The calls that reached [Bun.secrets]. *)
Definition is_vault_call (ev : Event) : bool :=
  match ev with
  | SecretsSet _ _ | SecretsGet _ | SecretsDelete _ => true
  | _ => false
  end.

(** The events of [s'] that [s] does not have yet. *)
Definition since (s s' : State) : list Event := drop (length (events s)) (events s').

(** Whether a profile with this id is in the collection. *)
Definition known (cs : list DbConfig) (id_ : jsstring) : bool :=
  existsb (fun c => jsstring_eqb (id c) id_) cs.

(** A call of the collaborator-facing API that changes the collection. *)
Inductive Call : Type :=
| CallAdd (config : JsValue)
| CallUpdate (config : DbConfig)
| CallRemove (id_ : jsstring).

Section Calls.
Context {rt : Runtime}.

Definition call (c : Call) : M unit :=
  match c with
  | CallAdd config => addConfig config
  | CallUpdate config => updateConfig config
  | CallRemove id_ => removeConfig id_
  end.

(** One call after the other; a caller that catches what [addConfig] throws
    goes on with the next. *)
Fixpoint run (calls : list Call) (s : State) : State :=
  match calls with
  | [] => s
  | c :: r => run r (snd (call c s))
  end.

(** A text that is the serialisation of an array of objects whose
    [password] property is the empty string. *)
Definition stripped (text : jsstring) : Prop :=
  exists entries,
    text = JSON_stringify (JArr entries) 2
    /\ Forall (fun v => get_property v (js "password") = Return (Some (JStr [])))
         entries.

(** What [saveConfigRaw] writes for a collection. *)
Definition metadata_text (cs : list DbConfig) : jsstring :=
  JSON_stringify (JArr (map toJs (map (fun c => with_password c []) cs))) 2.

(** Whether a password argument counts as given: [undefined] and the empty
    string are both falsy. *)
Definition supplied (password_ : option jsstring) : bool :=
  match password_ with
  | Some p => truthy_string p
  | None => false
  end.

(** The value [importFromFile] goes on with once its first [try] block is
    through, as a function of the text read and the password given. *)
Definition parse_file (fileContent : jsstring)
    (decryptionPassword : option jsstring) : Completion JsValue :=
  match JSON_parse fileContent with
  | Return parsed => Return parsed
  | Throw e =>
      let unreadable :=
        if startsWith fileContent MSG_PREFIX then Throw EncryptedFileError_new
        else Throw e in
      match decryptionPassword with
      | Some p =>
          if truthy_string p then
            match bind (decrypt fileContent p) JSON_parse with
            | Return parsed => Return parsed
            | Throw _ => Throw (Error (js "Invalid password or corrupted file"))
            end
          else unreadable
      | None => unreadable
      end
  end.

(** What [importFromFile] does with the validated profiles: the loop, the
    conditional save, the count. *)
Definition merge (validated : list DbConfig) : M nat :=
  let! imported := import_loop validated 0 in
  when (0 <? imported)%nat saveConfigRaw ;;
  ret imported.

(** The profiles the import loop pushes onto a collection [cs]. *)
Fixpoint fresh (cs validated : list DbConfig) : list DbConfig :=
  match validated with
  | [] => []
  | c :: r =>
      if known cs (id c) then fresh cs r else c :: fresh (cs ++ [c]) r
  end.

(** [s'] differs from [s] by events that are no writes, and possibly in
    the collection and the vault. *)
Definition quiet (s s' : State) : Prop :=
  configPath s' = configPath s
  /\ writable s' = writable s
  /\ files s' = files s
  /\ exists evs, events s' = events s ++ evs /\ written evs = [].

(** What [loadPasswordsFromKeychain] makes of a profile when the vault
    [m] is there. *)
Definition refill (m : gmap jsstring jsstring) (c : DbConfig) : DbConfig :=
  match m !! id c with
  | Some secret => if truthy_string secret then with_password c secret else c
  | None => c
  end.

(** An event that is no write, or a write of a stripped text to [path]. *)
Definition benign (path : jsstring) (ev : Event) : Prop :=
  match ev with
  | FsWrite p data _ => p = path /\ stripped data
  | _ => True
  end.

(** [s'] comes after [s]: same instance path and disk, only benign events
    more, and every file as it was or, at the instance path, replaced by a
    stripped text. *)
Definition extends (s s' : State) : Prop :=
  configPath s' = configPath s
  /\ writable s' = writable s
  /\ (exists evs,
        events s' = events s ++ evs /\ Forall (benign (configPath s)) evs)
  /\ (forall path,
        files s' !! path = files s !! path
        \/ (path = configPath s
            /\ exists text,
                 stripped text /\ files s' !! path = Some (Utf8.encode text))).

Definition preserving {A} (m : M A) : Prop := forall s, extends s (snd (m s)).

End Calls.

(** A host with nothing on it: no file, an empty vault. *)
Definition blank : State :=
  {| configPath := js "/home/op/.db-cli-config.json";
     configs := [];
     files := ∅;
     writable := true;
     secrets := Some ∅;
     entropy := fun _ => zero;
     clock := js "2024-05-01T10:00:00.000Z";
     events := [] |}.

(** The profile of the settle ([createTestConfig]). *)
Definition testConfig (id_ name_ password_ : jsstring) : DbConfig :=
  {| id := id_; name := name_; type := postgres; host := js "localhost";
     port := 5432; user := js "postgres"; password := password_;
     database := js "testdb"; ssl := false; verbose := false; group := None |}.

(** A host whose only file is [path], holding [text], with collection [cs]. *)
Definition host_with_file (path text : jsstring) (cs : list DbConfig) : State :=
  set_configs cs (set_files (<[path := Utf8.encode text]> ∅) blank).

(** ** The rest of the collaborator-facing API, as requests *)

(** [{ ...c, password: '' }], as [saveConfigRaw] and [exportToFile] write it. *)
Definition strip (c : DbConfig) : DbConfig := with_password c [].

(** A call of any method the menus use. *)
Inductive Request : Type :=
| ReqAdd (config : JsValue)
| ReqUpdate (config : DbConfig)
| ReqRemove (id_ : jsstring)
| ReqInit
| ReqExport (filePath : jsstring) (encryptionPassword : option jsstring)
    (includePlainPasswords : bool)
| ReqImport (filePath : jsstring) (decryptionPassword : option jsstring).

Section Requests.
Context {rt : Runtime}.

Definition serve (r : Request) : M unit :=
  match r with
  | ReqAdd config => addConfig config
  | ReqUpdate config => updateConfig config
  | ReqRemove id_ => removeConfig id_
  | ReqInit => init
  | ReqExport filePath pw plainToo => exportToFile filePath pw plainToo
  | ReqImport filePath pw => let! _ := importFromFile filePath pw in ret tt
  end.

(** One request after the other, whatever each one throws. *)
Fixpoint serve_all (rs : list Request) (s : State) : State :=
  match rs with
  | [] => s
  | r :: rest => serve_all rest (snd (serve r s))
  end.

(** The seeding step of [addConfig], [updateConfig] and the import loop:
    [if (config.password) await KeychainHelper.setPassword(...)]. *)
Definition seed (c : DbConfig) : M unit :=
  when (truthy_string (password c))
    (let! _ := KeychainHelper.setPassword (id c) (password c) in ret tt).


(** A write is guarded when it is made with mode 0600 and, if it goes to
    [path], carries a stripped text. *)
Definition guarded (path : jsstring) (ev : Event) : Prop :=
  match ev with
  | FsWrite p data mode => mode = MODE_0600 /\ (p = path -> stripped data)
  | _ => True
  end.

(** [s'] comes after [s] with the instance path kept, guarded events only,
    and the file at the instance path as it was or replaced by a stripped
    text. *)
Definition keeps (s s' : State) : Prop :=
  configPath s' = configPath s
  /\ (exists evs,
        events s' = events s ++ evs /\ Forall (guarded (configPath s)) evs)
  /\ (files s' !! configPath s = files s !! configPath s
      \/ exists text,
           stripped text
           /\ files s' !! configPath s = Some (Utf8.encode text)).

Definition keeping {A} (m : M A) : Prop := forall s, keeps s (snd (m s)).

(** An export that does not aim at the instance path. *)
Definition elsewhere (path : jsstring) (r : Request) : Prop :=
  match r with
  | ReqExport filePath _ _ => filePath <> path
  | _ => True
  end.

(** What [loadPasswordsFromKeychain] makes of a profile, with the vault
    there or not. *)
Definition refilled (vault : option (gmap jsstring jsstring)) (c : DbConfig)
  : DbConfig :=
  match vault with
  | Some m => refill m c
  | None => c
  end.


End Requests.

(** ** src/cli/menus/settings.ts: the helpers around export and import *)

(** [String.prototype.endsWith] *)
Definition endsWith (s suffix : jsstring) : bool :=
  jsstring_eqb (drop (length s - length suffix) s) suffix.

Definition ensureEncExtension (path : jsstring) : jsstring :=
  if endsWith path (js ".enc") then path else path ++ js ".enc".

(** The filter of [handleImportConfig]:
    [f.endsWith('.json') || f.endsWith('.enc')]. *)
Definition listed (f : jsstring) : bool :=
  endsWith f (js ".json") || endsWith f (js ".enc").

(** [error.name] *)
Definition error_name (e : Exn) : jsstring :=
  match e with
  | Error _ => js "Error"
  | EncryptedFileError _ => js "EncryptedFileError"
  | SyntaxError _ => js "SyntaxError"
  | TypeError _ => js "TypeError"
  | ZodError => js "ZodError"
  | CryptoError _ => js "Error"
  | SystemError _ => js "Error"
  end.

(** [error instanceof EncryptedFileError || error.name === 'EncryptedFileError'] *)
Definition isEncryptedError (error : Exn) : bool :=
  match error with EncryptedFileError _ => true | _ => false end
  || jsstring_eqb (error_name error) (js "EncryptedFileError").

(** ** src/cli/menus/settings.ts: the handlers

    A handler is a function of the answers its prompts get, [None] for a
    prompt that was cancelled. [logError] is the one the helpers use; what
    [logWarn] and [logSuccess] print goes to the terminal only and is left
    out. *)




Section SettingsMenu.
Context {rt : Runtime}.






End SettingsMenu.

(** ** src/errors, src/validations/index.ts, [assertValidDbName] *)

Inductive DbCliError : Type :=
| ConnectionError (message : jsstring)
| ValidationError (message : jsstring)
| AdapterError (message : jsstring)
| ConfigError (message : jsstring).

Module Validations.

(** A string schema, on a string: the messages of the issues it raises, in
    the order of its checks. Values that are not strings are not modelled. *)
Definition StringSchema : Type := jsstring -> list jsstring.

(** [.min(n, message)] on the length in code units. *)
Definition min (n : nat) (message : jsstring) : StringSchema := fun val =>
  if (length val <? n)%nat then [message] else [].

(** A later check, by the predicate it wants to hold. *)
Definition check (holds : jsstring -> bool) (message : jsstring) : StringSchema :=
  fun val => if holds val then [] else [message].

Definition chain (a b : StringSchema) : StringSchema := fun val => a val ++ b val.

(** The class [a-zA-Z0-9_-]. *)
Definition name_unit (c : N) : bool :=
  ((97 <=? c) && (c <=? 122)) || ((65 <=? c) && (c <=? 90))
  || ((48 <=? c) && (c <=? 57)) || (c =? 95) || (c =? 45).

(** [/^[a-zA-Z0-9_-]+$/.test(val)] *)
Definition name_regex (val : jsstring) : bool :=
  negb (jsstring_eqb val []) && forallb name_unit val.

(** [val.includes(c)] for a one-unit string. *)
Definition includes (c : N) (val : jsstring) : bool := existsb (N.eqb c) val.

(** The class of the second refinement: less-than, greater-than, colon,
    double quote, bar, question mark, asterisk. *)
Definition reserved_unit (c : N) : bool :=
  (c =? 60) || (c =? 62) || (c =? 58) || (c =? 34) || (c =? 124)
  || (c =? 63) || (c =? 42).

Definition DbNameSchema : StringSchema :=
  chain (min 1 (js "Name is required"))
    (check name_regex
       (js "Invalid name. Only alphanumeric characters, underscores, and hyphens allowed.")).

Definition FilenameSchema : StringSchema :=
  chain (min 1 (js "Filename is required"))
    (chain
       (check (fun val => negb (includes 47 val) && negb (includes 92 val))
          (js "Filename cannot contain path separators (/ or \). Please use simple filenames only."))
       (check (fun val => negb (existsb reserved_unit val))
          (js "Filename contains invalid characters."))).


(** [result.error.issues[0]?.message || 'Invalid value'], [None] for
    [undefined]. *)
Definition zodValidate (schema : StringSchema) (value : jsstring) : option jsstring :=
  match schema value with
  | [] => None
  | message :: _ =>
      Some (if truthy_string message then message else js "Invalid value")
  end.

(** [assertValidDbName] of utils. *)
Definition assertValidDbName (name_ : jsstring) : DbCliError + unit :=
  match zodValidate DbNameSchema name_ with
  | Some result =>
      if truthy_string result then inl (ValidationError result) else inr tt
  | None => inr tt
  end.

End Validations.

(** * Properties *)

(** ** base64 *)

Module Base64Facts.
Import Base64.

Lemma unbase64_alphabet (s : sextet) : unbase64 (alphabet s) = Some s.
Proof.
  destruct s as [[[[[[] []] []] []] []] []]; vm_compute; reflexivity.
Qed.

Lemma alphabet_not_pad (s : sextet) : (alphabet s =? PAD) = false.
Proof.
  destruct s as [[[[[[] []] []] []] []] []]; vm_compute; reflexivity.
Qed.

Lemma alphabet_not_colon (s : sextet) : alphabet s <> COLON.
Proof.
  destruct s as [[[[[[] []] []] []] []] []]; vm_compute; discriminate.
Qed.

Lemma alphabet_ascii (s : sextet) : alphabet s < 128.
Proof.
  destruct s as [[[[[[] []] []] []] []] []]; vm_compute; reflexivity.
Qed.

Lemma scan_alphabet (l : list sextet) (tail : jsstring) :
  scan (map alphabet l ++ tail) = l ++ scan tail.
Proof.
  induction l as [|x l IH]; [reflexivity|].
  cbn [map app scan].
  rewrite alphabet_not_pad, unbase64_alphabet, IH. reflexivity.
Qed.

Lemma scan_padding (b : Buffer) : scan (padding b) = [].
Proof.
  assert (H : forall n (b : Buffer), (length b <= n)%nat -> scan (padding b) = []).
  { clear b. induction n as [|n IH]; intros b Hb.
    - destruct b; [reflexivity | cbn in Hb; lia].
    - destruct b as [|x [|y [|z r]]]; try reflexivity.
      cbn [padding]. apply IH. cbn in Hb. lia. }
  apply (H (length b)). lia.
Qed.

Lemma of_to_sextets (b : Buffer) : of_sextets (to_sextets b) = b.
Proof.
  assert (H : forall n (b : Buffer),
    (length b <= n)%nat -> of_sextets (to_sextets b) = b).
  { clear b. induction n as [|n IH]; intros b Hb.
    - destruct b; [reflexivity | cbn in Hb; lia].
    - destruct b as [|[] [|[] [|[] r]]]; try reflexivity.
      cbn [to_sextets of_sextets]. rewrite IH; [reflexivity | cbn in Hb; lia]. }
  apply (H (length b)). lia.
Qed.

Lemma base64_roundtrip (b : Buffer) : decode (encode b) = b.
Proof.
  unfold decode, encode.
  rewrite scan_alphabet, scan_padding, app_nil_r. apply of_to_sextets.
Qed.

Lemma base64_encode_inj (a b : Buffer) : encode a = encode b -> a = b.
Proof.
  intros H. rewrite <- (base64_roundtrip a), <- (base64_roundtrip b), H. reflexivity.
Qed.

Lemma padding_pad (b : Buffer) : Forall (fun c => c = PAD) (padding b).
Proof.
  assert (H : forall n (b : Buffer),
    (length b <= n)%nat -> Forall (fun c => c = PAD) (padding b)).
  { clear b. induction n as [|n IH]; intros b Hb.
    - destruct b; [constructor | cbn in Hb; lia].
    - destruct b as [|x [|y [|z r]]]; cbn [padding]; repeat constructor.
      apply IH. cbn in Hb. lia. }
  apply (H (length b)). lia.
Qed.

Lemma base64_no_colon (b : Buffer) : Forall (fun c => c <> COLON) (encode b).
Proof.
  unfold encode. apply Forall_app. split.
  - apply Forall_forall. intros c Hc. apply list_elem_of_fmap in Hc.
    destruct Hc as [s [-> _]]. apply alphabet_not_colon.
  - eapply Forall_impl; [apply padding_pad|].
    intros c ->. vm_compute. discriminate.
Qed.

Lemma base64_ascii (b : Buffer) : Forall (fun c => c < 128) (encode b).
Proof.
  unfold encode. apply Forall_app. split.
  - apply Forall_forall. intros c Hc. apply list_elem_of_fmap in Hc.
    destruct Hc as [s [-> _]]. apply alphabet_ascii.
  - eapply Forall_impl; [apply padding_pad|].
    intros c ->. vm_compute. reflexivity.
Qed.

(** The test vectors of RFC 4648. *)
Example base64_foobar :
  map encode [ [] ; [ "f" ] ; [ "f"; "o" ] ; [ "f"; "o"; "o" ] ;
               [ "f"; "o"; "o"; "b" ] ]%char
  = [ js "" ; js "Zg==" ; js "Zm8=" ; js "Zm9v" ; js "Zm9vYg==" ].
Proof. reflexivity. Qed.

Example base64_decode_foobar : decode (js "Zm9vYmFy") = [ "f"; "o"; "o"; "b"; "a"; "r" ]%char.
Proof. reflexivity. Qed.

End Base64Facts.

(** ** utf8 *)

Module Utf8Facts.
Import Utf8.

Lemma val_byte (n : N) : n < 256 -> val (byte n) = n.
Proof. apply N_ascii_embedding. Qed.

Ltac settle :=
  repeat match goal with
    | |- context [N.ltb ?a ?b] =>
        first [ rewrite (proj2 (N.ltb_lt a b)) by lia
              | rewrite (proj2 (N.ltb_ge a b)) by lia ]
    | |- context [N.leb ?a ?b] =>
        first [ rewrite (proj2 (N.leb_le a b)) by lia
              | rewrite (proj2 (N.leb_gt a b)) by lia ]
    | |- context [N.eqb ?a ?b] =>
        first [ rewrite (proj2 (N.eqb_eq a b)) by lia
              | rewrite (proj2 (N.eqb_neq a b)) by lia ]
    end.


Ltac euclid := zify; Z.to_euclidean_division_equations; lia.

Lemma split2 (cp : N) : cp = (cp / 64) * 64 + cp mod 64 /\ cp mod 64 < 64.
Proof. euclid. Qed.

Lemma split3 (cp : N) :
  cp = (cp / 4096) * 4096 + ((cp / 64) mod 64) * 64 + cp mod 64
  /\ (cp / 64) mod 64 < 64 /\ cp mod 64 < 64.
Proof. euclid. Qed.

Lemma split4 (cp : N) :
  cp = (cp / 262144) * 262144 + ((cp / 4096) mod 64) * 4096
       + ((cp / 64) mod 64) * 64 + cp mod 64
  /\ (cp / 4096) mod 64 < 64 /\ (cp / 64) mod 64 < 64 /\ cp mod 64 < 64.
Proof. euclid. Qed.

Lemma lead_sub (k a : N) : k + a - k = a.
Proof. lia. Qed.


Lemma utf8_decode_cons (x : octet) (r : Buffer) :
  decode (x :: r) = decode_step decode x r.
Proof. reflexivity. Qed.

Lemma between_byte (lo hi n : N) :
  n < 256 -> between lo hi (byte n) = (lo <=? n) && (n <=? hi).
Proof. intros H. unfold between. rewrite val_byte by exact H. reflexivity. Qed.

Lemma cont_byte (n : N) : n < 64 -> cont (byte (0x80 + n)) = n.
Proof. intros H. unfold cont. rewrite val_byte by lia. lia. Qed.

Lemma between_cont (n : N) : n < 64 -> between 0x80 0xBF (byte (0x80 + n)) = true.
Proof. intros H. rewrite between_byte by lia. apply andb_true_intro. split; apply N.leb_le; lia. Qed.

Lemma decode_encode_scalar (cp : N) (rest : Buffer) :
  cp < 0xD800 \/ 0xE000 <= cp < 0x110000 ->
  decode (encode_scalar cp ++ rest) = units_of_scalar cp ++ decode rest.
Proof.
  intros Hcp. unfold encode_scalar.
  destruct (N.ltb_spec cp 0x80) as [H1|H1].
  { cbn [app]. rewrite utf8_decode_cons. unfold decode_step. rewrite val_byte by lia. unfold units_of_scalar.
    settle. reflexivity. }
  destruct (N.ltb_spec cp 0x800) as [H2|H2].
  { destruct (split2 cp) as [Hs Hd].
    set (a := cp / 64) in *. set (d := cp mod 64) in *.
    clearbody a d.
    cbn [app]. rewrite utf8_decode_cons. unfold decode_step. cbv zeta.
    rewrite between_cont, cont_byte by exact Hd.
    rewrite !between_byte, val_byte by lia.
    settle. cbn [andb]. rewrite lead_sub, <- Hs. reflexivity. }
  destruct (N.ltb_spec cp 0x10000) as [H3|H3].
  { destruct (split3 cp) as [Hs [Hc Hd]].
    set (a := cp / 4096) in *. set (c := (cp / 64) mod 64) in *.
    set (d := cp mod 64) in *. clearbody a c d.
    cbn [app]. rewrite utf8_decode_cons. unfold decode_step. cbv zeta.
    rewrite between_cont, !cont_byte by assumption.
    rewrite !between_byte, val_byte by lia.
    destruct (N.eqb_spec (224 + a) 224) as [E0|E0];
      destruct (N.eqb_spec (224 + a) 237) as [ED|ED];
      try (exfalso; lia).
    all: settle. 
    all: cbn [andb]; rewrite lead_sub, <- Hs; reflexivity. }
  destruct (split4 cp) as [Hs [Hb [Hc Hd]]].
  set (a := cp / 262144) in *. set (b := (cp / 4096) mod 64) in *.
  set (c := (cp / 64) mod 64) in *. set (d := cp mod 64) in *.
  clearbody a b c d.
  cbn [app]. rewrite utf8_decode_cons. unfold decode_step. cbv zeta.
  rewrite !between_cont, !cont_byte by assumption.
  rewrite !between_byte, val_byte by lia.
  destruct (N.eqb_spec (240 + a) 240) as [F0|F0];
    destruct (N.eqb_spec (240 + a) 244) as [F4|F4];
    try (exfalso; lia).
  all: settle.
  all: cbn [andb]; rewrite lead_sub, <- Hs; reflexivity.
Qed.
Lemma units_of_pair (u v : N) :
  is_high u = true -> is_low v = true ->
  units_of_scalar (0x10000 + (u - 0xD800) * 0x400 + (v - 0xDC00)) = [u; v].
Proof.
  unfold is_high, is_low, units_of_scalar. intros Hu Hv.
  apply andb_prop in Hu, Hv. destruct Hu as [Hu1 Hu2], Hv as [Hv1 Hv2].
  apply N.leb_le in Hu1, Hu2, Hv1, Hv2.
  rewrite (proj2 (N.ltb_ge _ _)) by lia.
  f_equal; [|f_equal]; euclid.
Qed.

Lemma pair_scalar (u v : N) :
  is_high u = true -> is_low v = true ->
  0xE000 <= 0x10000 + (u - 0xD800) * 0x400 + (v - 0xDC00) < 0x110000.
Proof.
  unfold is_high, is_low. intros Hu Hv.
  apply andb_prop in Hu, Hv. destruct Hu as [Hu1 Hu2], Hv as [Hv1 Hv2].
  apply N.leb_le in Hu1, Hu2, Hv1, Hv2. lia.
Qed.

Lemma unit_scalar (u : N) :
  is_high u = false -> is_low u = false -> u < 0x10000 ->
  (u < 0xD800 \/ 0xE000 <= u < 0x110000) /\ units_of_scalar u = [u].
Proof.
  unfold is_high, is_low, units_of_scalar. intros Hu Hv Hlt.
  rewrite (proj2 (N.ltb_lt _ _)) by exact Hlt. split; [|reflexivity].
  apply andb_false_iff in Hu, Hv.
  rewrite !N.leb_gt in Hu, Hv. lia.
Qed.

(** Decoding undoes encoding on every well-formed string. *)
Lemma utf8_roundtrip (s : jsstring) :
  well_formed s = true -> decode (encode s) = s.
Proof.
  assert (H : forall n (s : jsstring), (length s <= n)%nat ->
    well_formed s = true -> decode (encode s) = s).
  { clear s. induction n as [|n IH]; intros s Hn Hwf.
    - destruct s; [reflexivity | cbn in Hn; lia].
    - destruct s as [|u r]; [reflexivity|].
      cbn [well_formed encode] in *.
      destruct (is_high u) eqn:Hh.
      + destruct r as [|v r']; [discriminate|].
        apply andb_prop in Hwf. destruct Hwf as [Hl Hwf]. rewrite Hl.
        rewrite decode_encode_scalar by (right; apply pair_scalar; assumption).
        rewrite units_of_pair by assumption.
        rewrite IH; [reflexivity | cbn in Hn; lia | exact Hwf].
      + apply andb_prop in Hwf. destruct Hwf as [Hwf Hr].
        apply andb_prop in Hwf. destruct Hwf as [Hl Hlt].
        apply negb_true_iff in Hl. apply N.ltb_lt in Hlt. rewrite Hl.
        destruct (unit_scalar u Hh Hl Hlt) as [Hs Hu].
        rewrite decode_encode_scalar by exact Hs. rewrite Hu.
        rewrite IH; [reflexivity | cbn in Hn; lia | exact Hr]. }
  intros Hwf. apply (H (length s)); [lia | exact Hwf].
Qed.

(** An unpaired surrogate does not survive: it comes back as U+FFFD. *)
Lemma lone_surrogate : decode (encode [0xD800]) = [REPLACEMENT].
Proof. vm_compute. reflexivity. Qed.

Lemma below_surrogates (s : jsstring) :
  Forall (fun u => u < 0xD800) s -> well_formed s = true.
Proof.
  induction 1 as [|u r Hu _ IH]; [reflexivity|].
  cbn [well_formed]. unfold is_high, is_low.
  rewrite (proj2 (N.leb_gt 0xD800 u)), (proj2 (N.leb_gt 0xDC00 u)) by lia.
  cbn [andb negb].
  rewrite IH, (proj2 (N.ltb_lt _ _)) by lia. reflexivity.
Qed.

(** U+0041, U+00E9, U+20AC and U+1F680 (a surrogate pair) take one, two,
    three and four octets. *)
Example utf8_samples :
  map val (encode [0x41; 0xE9; 0x20AC; 0xD83D; 0xDE80])
  = [0x41; 0xC3; 0xA9; 0xE2; 0x82; 0xAC; 0xF0; 0x9F; 0x9A; 0x80].
Proof. vm_compute. reflexivity. Qed.

(** An overlong form and a truncated sequence decode to U+FFFD. *)
Example utf8_ill_formed :
  decode (map byte [0xC0; 0x80; 0x41; 0xE2; 0x82]) = [0xFFFD; 0xFFFD; 0x41; 0xFFFD].
Proof. vm_compute. reflexivity. Qed.

End Utf8Facts.

(** ** Strings *)

Lemma jsstring_eqb_eq (a b : jsstring) : jsstring_eqb a b = true <-> a = b.
Proof.
  revert b. induction a as [|x a IH]; intros [|y b]; cbn; try (split; congruence).
  unfold unit_eqb. rewrite andb_true_iff, N.eqb_eq, IH.
  split; [intros [-> ->]; reflexivity | intros [= -> ->]; split; reflexivity].
Qed.

Lemma jsstring_eqb_refl (a : jsstring) : jsstring_eqb a a = true.
Proof. apply jsstring_eqb_eq. reflexivity. Qed.

Lemma jsstring_eqb_neq (a b : jsstring) : jsstring_eqb a b = false <-> a <> b.
Proof.
  rewrite <- jsstring_eqb_eq. destruct (jsstring_eqb a b); split; congruence.
Qed.

Lemma truthy_string_nonempty (s : jsstring) : truthy_string s = true <-> s <> [].
Proof.
  unfold truthy_string. rewrite negb_true_iff. apply jsstring_eqb_neq.
Qed.

Lemma startsWith_app (p s : jsstring) : startsWith (p ++ s) p = true.
Proof.
  induction p as [|c p IH]; [reflexivity|].
  cbn. unfold unit_eqb. rewrite N.eqb_refl, IH. reflexivity.
Qed.

Lemma startsWith_inv (s p : jsstring) :
  startsWith s p = true -> s = p ++ drop (length p) s.
Proof.
  revert s. induction p as [|c p IH]; intros s H; [reflexivity|].
  destruct s as [|x s]; [discriminate|]. cbn in H.
  apply andb_prop in H. destruct H as [Hx Hs].
  apply N.eqb_eq in Hx. subst x. cbn. f_equal. apply IH, Hs.
Qed.

Lemma substring_app (p s : jsstring) : substring (p ++ s) (length p) = s.
Proof. unfold substring. apply drop_app_length. Qed.

(** A piece without the separator is split off whole. *)
Lemma split_piece (sep : N) (piece rest : jsstring) :
  Forall (fun c => c <> sep) piece ->
  split sep (piece ++ sep :: rest) = piece :: split sep rest.
Proof.
  induction 1 as [|c piece Hc _ IH]; cbn.
  - unfold unit_eqb. rewrite N.eqb_refl. reflexivity.
  - unfold unit_eqb. rewrite (proj2 (N.eqb_neq c sep) Hc), IH. reflexivity.
Qed.

Lemma split_last (sep : N) (piece : jsstring) :
  Forall (fun c => c <> sep) piece -> split sep piece = [piece].
Proof.
  induction 1 as [|c piece Hc _ IH]; cbn; [reflexivity|].
  unfold unit_eqb. rewrite (proj2 (N.eqb_neq c sep) Hc), IH. reflexivity.
Qed.

Lemma app_separator_inj (sep : N) (a a' r r' : jsstring) :
  Forall (fun c => c <> sep) a -> Forall (fun c => c <> sep) a' ->
  a ++ sep :: r = a' ++ sep :: r' -> a = a' /\ r = r'.
Proof.
  intros Ha. revert a'. induction Ha as [|c a Hc _ IH]; intros a' Ha' E.
  - destruct Ha' as [|c' a' Hc' _]; cbn in E.
    + injection E as ->. split; reflexivity.
    + injection E as E _. congruence.
  - destruct Ha' as [|c' a' Hc' Ha']; cbn in E.
    + injection E as E _. congruence.
    + injection E as -> E. destruct (IH _ Ha' E) as [-> ->].
      split; reflexivity.
Qed.

Example split_samples :
  map (split COLON) [ js "" ; js "a:b" ; js "a:" ; js "invalid:format" ]
  = [ [ js "" ] ; [ js "a"; js "b" ] ; [ js "a"; js "" ] ;
      [ js "invalid"; js "format" ] ].
Proof. reflexivity. Qed.

Lemma randomBytes_length (n : nat) (e : Entropy) :
  length (fst (randomBytes n e)) = n.
Proof. cbn. rewrite length_map, length_seq. reflexivity. Qed.

(** ** The small runtime satisfies what is assumed *)

Module SmallFacts.
Import Small.

Lemma of_to_tree : forall v, of_tree (to_tree v) = v.
Proof.
  fix IH 1. intros [| [] | n | s | items | fields]; cbn; try reflexivity.
  - f_equal. induction items as [|i items IHi]; cbn; [reflexivity|].
    rewrite IH, IHi. reflexivity.
  - f_equal. induction fields as [|[k v] fields IHf]; cbn; [reflexivity|].
    rewrite IH, IHf. reflexivity.
Qed.

Lemma number_digits (p : positive) : number (digits p) = Some p.
Proof. induction p as [p IH|p IH|]; cbn; rewrite ?IH; reflexivity. Qed.

Lemma digits_low (p : positive) : Forall (fun u => u < 0xD800) (digits p).
Proof. induction p; cbn; repeat constructor; assumption || lia. Qed.

Lemma buffer_eqb_refl (b : Buffer) : buffer_eqb b b = true.
Proof.
  induction b as [|x b IH]; [reflexivity|].
  cbn. rewrite Ascii.eqb_refl, IH. reflexivity.
Qed.

Lemma number_sealed (r : jsstring) : number (MSG_PREFIX ++ r) = None.
Proof. reflexivity. Qed.

Lemma laws : RuntimeLaws runtime.
Proof.
  split;
    unfold JSON_parse, JSON_stringify, pbkdf2Sync, cipher, decipher, runtime.
  - intros v indent _. unfold parse_text, stringify.
    rewrite number_digits, decode_encode, of_to_tree. reflexivity.
  - intros v indent. apply Utf8Facts.below_surrogates, digits_low.
  - intros text H. apply startsWith_inv in H. rewrite H.
    unfold parse_text. rewrite number_sealed. eexists. reflexivity.
  - intros password salt iterations keylen digest. unfold derive.
    rewrite length_take, !length_app, repeat_length. lia.
  - intros key iv data Hk Hi. eexists. split; [reflexivity|].
    unfold unseal. rewrite app_assoc.
    rewrite <- length_app, take_app_length, drop_app_length, buffer_eqb_refl.
    reflexivity.
  - intros algo key iv sealed e. unfold unseal.
    destruct (buffer_eqb _ _); [discriminate|].
    intros [= <-]. eexists. reflexivity.
Qed.

End SmallFacts.

(** ** crypto.ts *)

Section CryptoFacts.
Context {rt : Runtime}.

Lemma parts_of_envelope (salt iv encrypted : Buffer) :
  parts_of (envelope salt iv encrypted)
  = [Base64.encode salt; Base64.encode iv; Base64.encode encrypted].
Proof.
  unfold parts_of, envelope. rewrite substring_app.
  cbn [app]. rewrite split_piece by apply Base64Facts.base64_no_colon.
  rewrite split_piece by apply Base64Facts.base64_no_colon.
  rewrite split_last by apply Base64Facts.base64_no_colon.
  reflexivity.
Qed.

Lemma envelope_inj (salt iv encrypted salt' iv' encrypted' : Buffer) :
  envelope salt iv encrypted = envelope salt' iv' encrypted' ->
  salt = salt' /\ iv = iv' /\ encrypted = encrypted'.
Proof.
  unfold envelope. intros E. apply app_inv_head in E. cbn [app] in E.
  apply app_separator_inj in E; try apply Base64Facts.base64_no_colon.
  destruct E as [Es E].
  apply app_separator_inj in E; try apply Base64Facts.base64_no_colon.
  destruct E as [Ei Ee].
  repeat split; apply Base64Facts.base64_encode_inj; assumption.
Qed.

Lemma decrypt_envelope (salt iv encrypted : Buffer) (password : jsstring) :
  decrypt (envelope salt iv encrypted) password
  = bind (decipher CIPHER_ALGO
            (pbkdf2Sync password salt ITERATIONS KEY_LEN ALGO) iv encrypted)
      (fun decrypted => Return (Utf8.decode decrypted)).
Proof.
  unfold decrypt. fold (parts_of (envelope salt iv encrypted)).
  rewrite parts_of_envelope.
  unfold envelope at 1. rewrite startsWith_app. cbn [negb].
  rewrite !Base64Facts.base64_roundtrip. reflexivity.
Qed.

Lemma encrypt_unfold (data password : jsstring) (e : Entropy) :
  fst (encrypt data password e)
  = bind (cipher CIPHER_ALGO
            (pbkdf2Sync password (fst (nonce e)) ITERATIONS KEY_LEN ALGO)
            (snd (nonce e)) (Utf8.encode data))
      (fun encrypted =>
         Return (envelope (fst (nonce e)) (snd (nonce e)) encrypted)).
Proof. reflexivity. Qed.

Lemma nonce_lengths (e : Entropy) :
  length (fst (nonce e)) = SALT_LEN /\ length (snd (nonce e)) = IV_LEN.
Proof.
  split; reflexivity.
Qed.

Context {laws : RuntimeLaws rt}.

(** What a seal is, and what opening it with the same password gives. *)
Lemma seal_then_open (data password : jsstring) (e : Entropy) :
  exists encrypted,
    fst (encrypt data password e)
    = Return (envelope (fst (nonce e)) (snd (nonce e)) encrypted)
    /\ decrypt (envelope (fst (nonce e)) (snd (nonce e)) encrypted) password
       = Return (Utf8.decode (Utf8.encode data)).
Proof.
  destruct (nonce_lengths e) as [_ Hiv].
  destruct (cipher_decipher
              (pbkdf2Sync password (fst (nonce e)) ITERATIONS KEY_LEN ALGO)
              (snd (nonce e)) (Utf8.encode data)
              (pbkdf2_length _ _ _ _ _) Hiv) as [sealed [Hc Hd]].
  exists sealed. rewrite encrypt_unfold, Hc, decrypt_envelope, Hd.
  split; reflexivity.
Qed.

End CryptoFacts.

Section CryptoClaims.
Context {rt : Runtime} {laws : RuntimeLaws rt}.

(** C2 (as amended): for every plaintext that is well-formed UTF-16 (no
    unpaired surrogate), the empty string, text outside ASCII and payloads
    of any length included, and for every password, sealing returns an
    envelope, and opening that envelope with the same password returns the
    plaintext. *)
Theorem seal_open_well_formed (data password : jsstring) (e : Entropy) :
  Utf8.well_formed data = true ->
  exists sealed,
    fst (encrypt data password e) = Return sealed
    /\ decrypt sealed password = Return data.
Proof.
  intros Hwf. destruct (seal_then_open data password e) as [c [Hs Ho]].
  eexists. split; [exact Hs|].
  rewrite Ho, Utf8Facts.utf8_roundtrip by exact Hwf. reflexivity.
Qed.

(** C5: a string that lacks the prefix, or whose remainder does not split
    into exactly three pieces at the colons, is rejected with the format
    error; a string with the prefix and three pieces never is: if opening
    it fails, what is thrown is the error of the decipher. *)
Theorem open_rejects_malformed (encryptedString password : jsstring) :
  (startsWith encryptedString MSG_PREFIX = false
   \/ length (parts_of encryptedString) <> 3%nat ->
   decrypt encryptedString password = Throw Invalid_encrypted_format)
  /\ (startsWith encryptedString MSG_PREFIX = true ->
      length (parts_of encryptedString) = 3%nat ->
      forall e, decrypt encryptedString password = Throw e ->
        (exists m, e = CryptoError m) /\ e <> Invalid_encrypted_format).
Proof.
  unfold decrypt. fold (parts_of encryptedString). split.
  - intros [Hp | Hn]; [rewrite Hp; reflexivity|].
    destruct (startsWith encryptedString MSG_PREFIX); [|reflexivity].
    cbn [negb].
    destruct (parts_of encryptedString) as [|a [|b [|c [|d r]]]];
      try reflexivity.
    exfalso. apply Hn. reflexivity.
  - intros Hp Hn e. rewrite Hp. cbn [negb].
    destruct (parts_of encryptedString) as [|a [|b [|c [|d r]]]];
      try discriminate Hn.
    destruct (decipher _ _ _ _) as [d|e'] eqn:Hd; [discriminate|].
    cbn [bind]. intros [= <-].
    destruct (decipher_throws _ _ _ _ _ Hd) as [m ->].
    split; [eexists; reflexivity | discriminate].
Qed.

(** C8: two seals of the same plaintext under the same password, drawn
    with different salt or vector, both return, and return different
    envelopes. *)
Theorem seal_twice_differs (data password : jsstring) (e1 e2 : Entropy) :
  nonce e1 <> nonce e2 ->
  exists sealed1 sealed2,
    fst (encrypt data password e1) = Return sealed1
    /\ fst (encrypt data password e2) = Return sealed2
    /\ sealed1 <> sealed2.
Proof.
  intros Hne.
  destruct (seal_then_open data password e1) as [c1 [H1 _]].
  destruct (seal_then_open data password e2) as [c2 [H2 _]].
  do 2 eexists. split; [exact H1|]. split; [exact H2|].
  intros E. apply envelope_inj in E. destruct E as [Es [Ei _]].
  apply Hne. destruct (nonce e1), (nonce e2). cbn in *. congruence.
Qed.

End CryptoClaims.

(** C2 fails as stated: under the small runtime the one-unit string U+D800
    is sealed, and the seal opens to U+FFFD. *)
Lemma seal_open_unpaired_surrogate :
  ~ (forall (rt : Runtime), RuntimeLaws rt ->
     forall (data password : jsstring) (e : Entropy),
     exists sealed,
       fst (encrypt data password e) = Return sealed
       /\ decrypt sealed password = Return data).
Proof.
  intros H.
  destruct (H Small.runtime SmallFacts.laws [0xD800] (js "hunter2")
              (fun _ => zero)) as [sealed [Hs Ho]].
  destruct (@seal_then_open Small.runtime SmallFacts.laws [0xD800]
              (js "hunter2") (fun _ => zero)) as [c [Hs' Ho']].
  rewrite Hs in Hs'. injection Hs' as ->.
  pose proof (eq_trans (eq_sym Ho) Ho') as E.
  rewrite Utf8Facts.lone_surrogate in E. discriminate E.
Qed.

(** The run behind it: what the seal of U+D800 opens to. *)
Example unpaired_surrogate_run :
  bind (fst (encrypt (rt := Small.runtime) [0xD800] (js "hunter2") (fun _ => zero)))
    (fun sealed => decrypt (rt := Small.runtime) sealed (js "hunter2"))
  = Return [0xFFFD].
Proof. vm_compute. reflexivity. Qed.

Lemma seal_open_well_formed_witness :
  let data := js "Hello " ++ [0x4E16; 0x754C; 0x20; 0xD83D; 0xDE80] in
  exists sealed,
    fst (encrypt (rt := Small.runtime) data (js "test-password-123")
           (fun _ => zero)) = Return sealed
    /\ decrypt (rt := Small.runtime) sealed (js "test-password-123")
       = Return data.
Proof.
  apply (@seal_open_well_formed Small.runtime SmallFacts.laws).
  reflexivity.
Defined.

Lemma open_rejects_malformed_witness :
  decrypt (rt := Small.runtime) (js "ENC:invalid:format") (js "test-password-123")
  = Throw Invalid_encrypted_format.
Proof.
  apply (@open_rejects_malformed Small.runtime SmallFacts.laws).
  right. vm_compute. lia.
Defined.

Lemma seal_twice_differs_witness :
  exists sealed1 sealed2,
    fst (encrypt (rt := Small.runtime) (js "sensitive data")
           (js "test-password-123") (fun _ => zero)) = Return sealed1
    /\ fst (encrypt (rt := Small.runtime) (js "sensitive data")
              (js "test-password-123") (fun _ => one)) = Return sealed2
    /\ sealed1 <> sealed2.
Proof.
  apply (@seal_twice_differs Small.runtime SmallFacts.laws).
  vm_compute. discriminate.
Defined.

(** ** Schemas *)

Lemma bind_throws {A B} (c : Completion A) (k : A -> Completion B) (e : Exn) :
  bind c k = Throw e ->
  c = Throw e \/ exists a, c = Return a /\ k a = Throw e.
Proof.
  destruct c as [a|e']; cbn; intros H; [right; eauto | left; congruence].
Qed.

Lemma string_throws v e : z.string v = Throw e -> e = ZodError.
Proof. destruct v as [[]|]; cbn; congruence. Qed.

Lemma number_throws v e : z.number v = Throw e -> e = ZodError.
Proof. destruct v as [[]|]; cbn; congruence. Qed.

Lemma boolean_throws v e : z.boolean v = Throw e -> e = ZodError.
Proof. destruct v as [[]|]; cbn; congruence. Qed.

Lemma DbTypeSchema_throws v e : DbTypeSchema v = Throw e -> e = ZodError.
Proof.
  destruct v as [[]|]; cbn; try congruence.
  destruct (jsstring_eqb _ _); congruence.
Qed.

Lemma default_throws {A} (s : z.schema A) d v e :
  (forall v e, s v = Throw e -> e = ZodError) ->
  z.default s d v = Throw e -> e = ZodError.
Proof. intros Hs. destruct v; cbn; [intros H; eapply Hs, H | discriminate]. Qed.

Lemma optional_throws {A} (s : z.schema A) v e :
  (forall v e, s v = Throw e -> e = ZodError) ->
  z.optional s v = Throw e -> e = ZodError.
Proof.
  intros Hs. destruct v; cbn; [|discriminate].
  intros H. apply bind_throws in H. destruct H as [H | [a [_ H]]];
    [eapply Hs, H | discriminate].
Qed.

Create HintDb zod.
#[local] Hint Resolve string_throws number_throws boolean_throws
  DbTypeSchema_throws : zod.

(** Whatever [DbConfigSchema.parse] throws is a [ZodError]. *)
Lemma DbConfigSchema_throws (value : JsValue) (e : Exn) :
  parse DbConfigSchema value = Throw e -> e = ZodError.
Proof.
  unfold parse, DbConfigSchema. destruct value; try congruence.
  intros H.
  repeat (apply bind_throws in H; destruct H as [H | [? [_ H]]];
          [ first [ eapply string_throws, H | eapply number_throws, H
                  | eapply DbTypeSchema_throws, H
                  | eapply default_throws; [|exact H]; eauto with zod
                  | eapply optional_throws; [|exact H]; eauto with zod ] | ]).
  discriminate H.
Qed.

Lemma parse_toJs (c : DbConfig) : parse DbConfigSchema (toJs c) = Return c.
Proof. destruct c as [? ? [] ? ? ? ? ? ? ? []]; reflexivity. Qed.

Lemma parse_profiles (cs : list DbConfig) :
  parse (z.array DbConfigSchema) (JArr (map toJs cs)) = Return cs.
Proof.
  unfold parse. cbn [z.array].
  induction cs as [|c cs IH]; [reflexivity|].
  cbn [map traverse]. fold (parse DbConfigSchema (toJs c)).
  rewrite parse_toJs. cbn [bind]. rewrite IH. reflexivity.
Qed.

Lemma plain_toJs (c : DbConfig) : plain (toJs c) = true.
Proof. destruct c as [? ? ? ? ? ? ? ? ? ? []]; reflexivity. Qed.

Lemma plain_profiles (cs : list DbConfig) : plain (JArr (map toJs cs)) = true.
Proof.
  cbn [plain]. induction cs as [|c cs IH]; [reflexivity|].
  cbn [map forallb]. rewrite plain_toJs, IH. reflexivity.
Qed.

Lemma password_toJs (c : DbConfig) :
  get_property (toJs c) (js "password") = Return (Some (JStr (password c))).
Proof. reflexivity. Qed.

(** ** config-manager.ts: what is written *)

Section Persistence.
Context {rt : Runtime}.

Lemma extends_refl (s : State) : extends s s.
Proof.
  repeat split. - exists []. rewrite app_nil_r. split; constructor.
  - intros path. left. reflexivity.
Qed.

Lemma extends_trans (s1 s2 s3 : State) :
  extends s1 s2 -> extends s2 s3 -> extends s1 s3.
Proof.
  intros (Hp1 & Hw1 & (ev1 & He1 & Hb1) & Hf1) (Hp2 & Hw2 & (ev2 & He2 & Hb2) & Hf2).
  rewrite Hp1 in *. repeat split; try congruence.
  - exists (ev1 ++ ev2). rewrite He2, He1, app_assoc. split; [reflexivity|].
    apply Forall_app. split; assumption.
  - intros path. destruct (Hf2 path) as [E2 | [-> [t [Ht E2]]]].
    + rewrite E2. apply Hf1.
    + right. split; [reflexivity|]. exists t. split; assumption.
Qed.

(** A step that leaves path, disk and files alone and adds no write. *)
Lemma extends_quiet (s s' : State) (evs : list Event) :
  configPath s' = configPath s -> writable s' = writable s ->
  files s' = files s -> events s' = events s ++ evs ->
  Forall (fun ev => match ev with FsWrite _ _ _ => False | _ => True end) evs ->
  extends s s'.
Proof.
  intros Hp Hw Hf He Hq. repeat split; try assumption.
  - exists evs. split; [assumption|].
    eapply Forall_impl; [exact Hq|]. intros [] H; cbn; auto; contradiction.
  - intros path. left. rewrite Hf. reflexivity.
Qed.

Lemma preserving_ret {A} (a : A) : preserving (ret a).
Proof. intros s. apply extends_refl. Qed.

Lemma preserving_throw {A} (e : Exn) : preserving (throw (A := A) e).
Proof. intros s. apply extends_refl. Qed.

Lemma preserving_lift {A} (c : Completion A) : preserving (lift c).
Proof. intros s. apply extends_refl. Qed.

Lemma preserving_bind {A B} (m : M A) (k : A -> M B) :
  preserving m -> (forall a, preserving (k a)) -> preserving (mbind m k).
Proof.
  intros Hm Hk s. unfold mbind. specialize (Hm s).
  destruct (m s) as [[a|e] s1]; cbn [snd] in *; [|exact Hm].
  eapply extends_trans; [exact Hm | apply Hk].
Qed.

Lemma preserving_try_catch {A} (body : M A) (handler : Exn -> M A) :
  preserving body -> (forall e, preserving (handler e)) ->
  preserving (try_catch body handler).
Proof.
  intros Hm Hk s. unfold try_catch. specialize (Hm s).
  destruct (body s) as [[a|e] s1]; cbn [snd] in *; [exact Hm|].
  eapply extends_trans; [exact Hm | apply Hk].
Qed.

Lemma preserving_when (b : bool) (m : M unit) :
  preserving m -> preserving (when b m).
Proof. intros Hm. destruct b; [exact Hm | apply preserving_ret]. Qed.

Lemma preserving_logError (context : jsstring) (e : Exn) :
  preserving (logError context e).
Proof.
  intros s. eapply extends_quiet with (evs := [_]); try reflexivity.
  repeat constructor.
Qed.

Lemma preserving_setPassword (account secret : jsstring) :
  preserving (KeychainHelper.setPassword account secret).
Proof.
  intros s. unfold KeychainHelper.setPassword.
  destruct (secrets s); eapply extends_quiet with (evs := [_]);
    try reflexivity; repeat constructor.
Qed.

Lemma preserving_deletePassword (account : jsstring) :
  preserving (KeychainHelper.deletePassword account).
Proof.
  intros s. unfold KeychainHelper.deletePassword.
  destruct (secrets s); [|apply extends_refl].
  eapply extends_quiet with (evs := [_]); try reflexivity; repeat constructor.
Qed.

Lemma preserving_set_configs (f : State -> list DbConfig) :
  preserving (fun s => (Return tt, set_configs (f s) s)).
Proof.
  intros s. eapply extends_quiet with (evs := []); try reflexivity.
  - cbn. rewrite app_nil_r. reflexivity.
  - constructor.
Qed.

Lemma stripped_metadata (cs : list DbConfig) : stripped (metadata_text cs).
Proof.
  eexists. split; [reflexivity|].
  induction cs as [|c cs IH]; cbn [map]; constructor; [reflexivity | exact IH].
Qed.

Lemma saveConfigRaw_eq (s : State) :
  saveConfigRaw s
  = (Return tt,
     let s' := emit (FsWrite (configPath s) (metadata_text (configs s)) MODE_0600) s in
     if writable s then
       set_files (<[configPath s := Utf8.encode (metadata_text (configs s))]> (files s)) s'
     else emit (LogError (js "Error saving config") (SystemError (js "EACCES"))) s').
Proof.
  unfold saveConfigRaw, try_catch, writeFileSync, metadata_text.
  destruct (writable s); reflexivity.
Qed.

Lemma preserving_saveConfigRaw : preserving saveConfigRaw.
Proof.
  intros s. rewrite saveConfigRaw_eq. cbn [snd].
  pose proof (stripped_metadata (configs s)) as Hs.
  destruct (writable s) eqn:Hw; repeat split;
    cbn [configPath writable events files emit set_files]; try assumption.
  - eexists [_]. split; [reflexivity|]. repeat constructor. exact Hs.
  - intros path. destruct (decide (path = configPath s)) as [->|Hne].
    + right. split; [reflexivity|]. eexists. split; [exact Hs|].
      apply lookup_insert_eq.
    + left. apply lookup_insert_ne. congruence.
  - eexists [_; _]. split; [rewrite <- app_assoc; reflexivity|].
    repeat constructor. exact Hs.
  - intros path. left. reflexivity.
Qed.

Create HintDb preserve.
#[local] Hint Resolve preserving_ret preserving_throw preserving_lift
  preserving_bind preserving_try_catch preserving_when preserving_logError
  preserving_setPassword preserving_deletePassword preserving_set_configs
  preserving_saveConfigRaw : preserve.

Lemma preserving_addConfig (config : JsValue) : preserving (addConfig config).
Proof.
  unfold addConfig, push. auto 10 with preserve.
Qed.

Lemma preserving_removeConfig (id_ : jsstring) : preserving (removeConfig id_).
Proof.
  unfold removeConfig.
  apply preserving_bind; [apply preserving_set_configs|]. auto 10 with preserve.
Qed.

Lemma preserving_updateConfig (config : DbConfig) :
  preserving (updateConfig config).
Proof.
  intros s. unfold updateConfig.
  destruct (findIndex _ _) as [index|]; [|apply extends_refl].
  revert s. change (preserving
    (mbind (when (truthy_string (password config))
              (mbind (KeychainHelper.setPassword (id config) (password config))
                 (fun _ => ret tt)))
       (fun _ => mbind (fun s' => (Return tt,
                                    set_configs (<[index := config]> (configs s')) s'))
                   (fun _ => saveConfigRaw)))).
  apply preserving_bind; [auto 10 with preserve|]. intros _.
  apply preserving_bind; [|auto with preserve].
  apply (preserving_set_configs (fun s' => <[index := config]> (configs s'))).
Qed.

Lemma extends_run (calls : list Call) (s : State) : extends s (run calls s).
Proof.
  revert s. induction calls as [|c calls IH]; intros s; [apply extends_refl|].
  cbn [run]. eapply extends_trans; [|apply IH].
  destruct c; cbn [call];
    [apply preserving_addConfig | apply preserving_updateConfig
    | apply preserving_removeConfig].
Qed.

Lemma since_app (s s' : State) (evs : list Event) :
  events s' = events s ++ evs -> since s s' = evs.
Proof. intros E. unfold since. rewrite E. apply drop_app_length. Qed.

Lemma written_benign (path : jsstring) (evs : list Event) :
  Forall (benign path) evs -> Forall stripped (written evs).
Proof.
  induction 1 as [|ev evs Hev _ IH]; [constructor|].
  unfold written. cbn [flat_map]. apply Forall_app. split; [|exact IH].
  destruct ev; try constructor; [apply Hev | constructor].
Qed.

(** C1: whatever sequence of add, update and remove calls is made, from
    whatever state, every text written during it is the serialisation of
    entries whose password is the empty string, and the metadata file is
    either as it was before or holds such a text. *)
Theorem metadata_never_holds_password (calls : list Call) (s : State) :
  Forall stripped (written (since s (run calls s)))
  /\ (files (run calls s) !! configPath s = files s !! configPath s
      \/ exists text,
           stripped text
           /\ files (run calls s) !! configPath s = Some (Utf8.encode text)).
Proof.
  destruct (extends_run calls s) as (_ & _ & (evs & He & Hb) & Hf).
  split.
  - rewrite (since_app _ _ _ He). eapply written_benign, Hb.
  - destruct (Hf (configPath s)) as [E | [_ H]]; [left; exact E | right; exact H].
Qed.

End Persistence.

(** ** config-manager.ts: add, import, update *)

Section Store.
Context {rt : Runtime}.

(** C7: when the profile handed to add does not pass the schema, the call
    throws the schema's validation error; the collection, the files and
    the vault are as before and the only event is the log line: nothing
    was written and the vault was not called. *)
Theorem add_invalid_changes_nothing (config : JsValue) (s : State) :
  (forall c, parse DbConfigSchema config <> Return c) ->
  fst (addConfig config s) = Throw ZodError
  /\ configs (snd (addConfig config s)) = configs s
  /\ files (snd (addConfig config s)) = files s
  /\ secrets (snd (addConfig config s)) = secrets s
  /\ since s (snd (addConfig config s))
     = [LogError (js "Invalid configuration, not saving") ZodError].
Proof.
  intros Hbad. unfold addConfig, try_catch, mbind, lift.
  destruct (parse DbConfigSchema config) as [c|e] eqn:Hp;
    [exfalso; eapply Hbad; reflexivity|].
  apply DbConfigSchema_throws in Hp. subst e.
  repeat split. apply since_app. reflexivity.
Qed.

Lemma importFromFile_eq (filePath : jsstring) (pw : option jsstring) (s : State) :
  importFromFile filePath pw s
  = match files s !! filePath with
    | Some b =>
        (let! parsed := lift (parse_file (Utf8.decode b) pw) in
         let! connections := lift (connections_of parsed) in
         let! validated := lift (parse ConfigFileSchema connections) in
         merge validated) s
    | None => (Throw (SystemError (js "ENOENT")), s)
    end.
Proof.
  unfold importFromFile, merge, parse_file, mbind, readFileSync, try_catch,
    lift, throw.
  destruct (files s !! filePath) as [b|]; [|reflexivity].
  destruct (JSON_parse (Utf8.decode b)) as [parsed|e]; [reflexivity|].
  change (js "ENC:") with MSG_PREFIX.
  destruct pw as [p|]; [destruct (truthy_string p)|].
  - destruct (decrypt (Utf8.decode b) p) as [d|e']; cbn [bind];
      [destruct (JSON_parse d)|]; reflexivity.
  - destruct (startsWith (Utf8.decode b) MSG_PREFIX); reflexivity.
  - destruct (startsWith (Utf8.decode b) MSG_PREFIX); reflexivity.
Qed.

Lemma find_known (cs : list DbConfig) (i : jsstring) :
  known cs i
  = match find (fun c => jsstring_eqb (id c) i) cs with
    | Some _ => true
    | None => false
    end.
Proof.
  induction cs as [|c cs IH]; [reflexivity|].
  cbn [known existsb find]. destruct (jsstring_eqb (id c) i); [reflexivity|].
  exact IH.
Qed.

Lemma known_app (cs cs' : list DbConfig) (i : jsstring) :
  known (cs ++ cs') i = known cs i || known cs' i.
Proof. apply existsb_app. Qed.

Lemma known_in (cs : list DbConfig) (i : jsstring) :
  known cs i = true <-> In i (map id cs).
Proof.
  unfold known. rewrite existsb_exists, in_map_iff.
  split; intros [c [H1 H2]]; exists c.
  - apply jsstring_eqb_eq in H2. split; [exact H2 | exact H1].
  - split; [exact H2 | apply jsstring_eqb_eq, H1].
Qed.

(** When the incoming ids are pairwise distinct, the profiles pushed are
    those whose id the collection did not have. *)
Lemma fresh_distinct (validated cs : list DbConfig) :
  NoDup (map id validated) ->
  fresh cs validated
  = List.filter (fun c => negb (known cs (id c))) validated.
Proof.
  revert cs. induction validated as [|c r IH]; intros cs Hnd; [reflexivity|].
  cbn [map] in Hnd. apply NoDup_cons in Hnd. destruct Hnd as [Hc Hr].
  cbn [fresh List.filter]. destruct (known cs (id c)) eqn:Hk; cbn [negb].
  - apply IH, Hr.
  - f_equal. rewrite IH by exact Hr. apply List.filter_ext_in.
    intros c' Hc'. rewrite known_app. cbn [known existsb].
    destruct (jsstring_eqb (id c) (id c')) eqn:E;
      [|rewrite !orb_false_r; reflexivity].
    exfalso. apply jsstring_eqb_eq in E. apply Hc.
    apply list_elem_of_In, in_map_iff. exists c'. split; [congruence | exact Hc'].
Qed.

Lemma quiet_refl (s : State) : quiet s s.
Proof. repeat split. exists []. rewrite app_nil_r. split; reflexivity. Qed.

Lemma written_app (a b : list Event) : written (a ++ b) = written a ++ written b.
Proof. apply flat_map_app. Qed.

Lemma quiet_trans (s1 s2 s3 : State) : quiet s1 s2 -> quiet s2 s3 -> quiet s1 s3.
Proof.
  intros (Hp1 & Hw1 & Hf1 & ev1 & He1 & Hq1) (Hp2 & Hw2 & Hf2 & ev2 & He2 & Hq2).
  repeat split; try congruence.
  exists (ev1 ++ ev2). rewrite He2, He1, app_assoc, written_app, Hq1, Hq2.
  split; reflexivity.
Qed.

Lemma quiet_set_configs (cs : list DbConfig) (s : State) :
  quiet s (set_configs cs s).
Proof. repeat split. exists []. cbn. rewrite app_nil_r. split; reflexivity. Qed.

(** Seeding the vault for a profile: the collection stays, nothing is
    written. *)
Lemma seed_quiet (c : DbConfig) (s : State) :
  let m := when (truthy_string (password c))
             (let! _ := KeychainHelper.setPassword (id c) (password c) in ret tt) in
  fst (m s) = Return tt /\ configs (snd (m s)) = configs s /\ quiet s (snd (m s)).
Proof.
  cbn zeta. unfold when. destruct (truthy_string (password c));
    [|repeat split; apply quiet_refl].
  unfold mbind, KeychainHelper.setPassword, ret.
  destruct (secrets s); repeat split; eexists [_]; split; reflexivity.
Qed.

Lemma import_loop_known (c : DbConfig) (r : list DbConfig) (n : nat) (s : State) :
  known (configs s) (id c) = true ->
  import_loop (c :: r) n s = import_loop r n s.
Proof.
  rewrite find_known. cbn [import_loop].
  destruct (find _ (configs s)); [reflexivity | discriminate].
Qed.

Lemma import_loop_new (c : DbConfig) (r : list DbConfig) (n : nat) (s : State) :
  known (configs s) (id c) = false ->
  exists s1,
    configs s1 = configs s /\ quiet s s1
    /\ import_loop (c :: r) n s
       = import_loop r (S n) (set_configs (configs s1 ++ [c]) s1).
Proof.
  rewrite find_known. cbn [import_loop].
  destruct (find _ (configs s)); [discriminate|]. intros _.
  destruct (seed_quiet c s) as (Hr & Hc & Hq). cbn zeta in *.
  unfold mbind at 1. destruct (when _ _ s) as [[[]|e] s1];
    cbn [fst snd] in *; [|discriminate].
  exists s1. repeat split; try assumption; apply Hq.
Qed.

Lemma import_loop_spec (validated : list DbConfig) :
  forall (imported : nat) (s : State),
    fst (import_loop validated imported s)
    = Return (imported + length (fresh (configs s) validated))%nat
    /\ configs (snd (import_loop validated imported s))
       = configs s ++ fresh (configs s) validated
    /\ quiet s (snd (import_loop validated imported s)).
Proof.
  induction validated as [|c r IH]; intros imported s.
  - cbn. rewrite Nat.add_0_r, app_nil_r.
    split; [reflexivity|]. split; [reflexivity | apply quiet_refl].
  - cbn [fresh]. destruct (known (configs s) (id c)) eqn:Hk.
    + rewrite import_loop_known by exact Hk. apply IH.
    + destruct (import_loop_new c r imported s Hk) as (s1 & Hc & Hq & ->).
      destruct (IH (S imported) (set_configs (configs s1 ++ [c]) s1))
        as (IHr & IHc & IHq).
      cbn [configs set_configs] in IHr, IHc. rewrite <- Hc.
      rewrite IHr, IHc. cbn [length]. rewrite <- app_assoc.
      split; [f_equal; lia|]. split; [reflexivity|].
      eapply quiet_trans; [exact Hq|].
      eapply quiet_trans; [apply quiet_set_configs | exact IHq].
Qed.

Lemma merge_eq (validated : list DbConfig) (s : State) :
  merge validated s
  = match import_loop validated 0 s with
    | (Return n, s1) =>
        (Return n, if (0 <? n)%nat then snd (saveConfigRaw s1) else s1)
    | (Throw e, s1) => (Throw e, s1)
    end.
Proof.
  unfold merge, mbind, when, ret.
  destruct (import_loop validated 0 s) as [[n|e] s1]; [|reflexivity].
  destruct (0 <? n)%nat; [|reflexivity].
  rewrite saveConfigRaw_eq. reflexivity.
Qed.

(** The merge: the count, the collection, and the one write if anything
    was added. *)
Lemma merge_spec (validated : list DbConfig) (s : State) :
  let added := fresh (configs s) validated in
  fst (merge validated s) = Return (length added)
  /\ configs (snd (merge validated s)) = configs s ++ added
  /\ written (since s (snd (merge validated s)))
     = (if (0 <? length added)%nat then [metadata_text (configs s ++ added)]
        else []).
Proof.
  cbn zeta. rewrite merge_eq.
  destruct (import_loop_spec validated 0 s)
    as (Hr & Hc & Hp & Hw & Hf & evs & He & Hq).
  destruct (import_loop validated 0 s) as [[n|e] s1];
    cbn [fst snd] in *; [|discriminate].
  injection Hr as ->. rewrite <- Hc.
  destruct (0 <? length (fresh (configs s) validated))%nat.
  - rewrite saveConfigRaw_eq. cbn [snd].
    split; [reflexivity|]. split; [destruct (writable s1); reflexivity|].
    unfold since.
    destruct (writable s1); cbn [emit set_files events];
      rewrite He, <- ?app_assoc, drop_app_length, written_app, Hq;
      reflexivity.
  - split; [reflexivity|]. split; [reflexivity|].
    rewrite (since_app _ _ _ He). exact Hq.
Qed.

Lemma filter_split_length {A} (f : A -> bool) (l : list A) :
  length (List.filter (fun a => negb (f a)) l)
  = (length l - length (List.filter f l))%nat.
Proof.
  induction l as [|a l IH]; [reflexivity|].
  cbn [List.filter]. pose proof (List.filter_length_le f l).
  destruct (f a); cbn [negb length]; lia.
Qed.

(** C3 (as amended): for a file that parses and validates to N profiles
    with pairwise distinct ids, K of them with an id the collection
    already has, import returns N - K, appends exactly the profiles with a
    new id in file order after the untouched existing collection, and
    writes the metadata once if N - K is positive and not at all if it is
    zero. *)
Theorem import_adds_new_profiles
    (filePath : jsstring) (pw : option jsstring) (s : State) (b : Buffer)
    (parsed connections : JsValue) (validated : list DbConfig) :
  files s !! filePath = Some b ->
  parse_file (Utf8.decode b) pw = Return parsed ->
  connections_of parsed = Return connections ->
  parse ConfigFileSchema connections = Return validated ->
  NoDup (map id validated) ->
  let N := length validated in
  let K := length (List.filter (fun c => known (configs s) (id c)) validated) in
  let added := List.filter (fun c => negb (known (configs s) (id c))) validated in
  let s' := snd (importFromFile filePath pw s) in
  fst (importFromFile filePath pw s) = Return (N - K)%nat
  /\ configs s' = configs s ++ added
  /\ length added = (N - K)%nat
  /\ written (since s s')
     = (if (0 <? N - K)%nat then [metadata_text (configs s')] else []).
Proof.
  intros Hf Hp Hc Hv Hnd. cbn zeta.
  assert (E : importFromFile filePath pw s = merge validated s).
  { rewrite importFromFile_eq, Hf. unfold mbind, lift.
    rewrite Hp, Hc, Hv. reflexivity. }
  rewrite E.
  destruct (merge_spec validated s) as (Hr & Hcs & Hw). cbn zeta in *.
  rewrite (fresh_distinct _ _ Hnd) in Hr, Hcs, Hw.
  rewrite filter_split_length in Hr, Hw.
  rewrite Hr, Hcs, Hw. repeat split. apply filter_split_length.
Qed.

(** C6: when the text of the file does not parse and no password is given,
    import throws the encrypted-file error if the text starts with the
    sealed prefix and the parse error itself if it does not; the state is
    untouched either way. *)
Theorem import_unparsable_without_password
    (filePath : jsstring) (pw : option jsstring) (s : State)
    (b : Buffer) (e : Exn) :
  files s !! filePath = Some b ->
  JSON_parse (Utf8.decode b) = Throw e ->
  supplied pw = false ->
  importFromFile filePath pw s
  = (if startsWith (Utf8.decode b) MSG_PREFIX then Throw EncryptedFileError_new
     else Throw e, s).
Proof.
  intros Hf Hp Hpw. rewrite importFromFile_eq, Hf.
  unfold mbind, lift, parse_file. rewrite Hp.
  destruct pw as [p|]; cbn [supplied] in Hpw; [rewrite Hpw|];
    destruct (startsWith (Utf8.decode b) MSG_PREFIX); reflexivity.
Qed.


(** [null] is no such value: reading its [connections] throws before any
    validation. *)
Remark import_null (filePath : jsstring) (pw : option jsstring) (s : State)
    (b : Buffer) :
  files s !! filePath = Some b ->
  parse_file (Utf8.decode b) pw = Return JNull ->
  importFromFile filePath pw s
  = (Throw (TypeError (js "Cannot read properties of null")), s).
Proof.
  intros Hf Hp. rewrite importFromFile_eq, Hf. unfold mbind, lift.
  rewrite Hp. reflexivity.
Qed.

End Store.

(** The scenario of the specification: a profile with a password is added
    to an empty store; the collection keeps the password, the vault holds it
    under the id, and the text written has it stripped. *)
Example add_with_password :
  let a := testConfig (js "a") (js "X") (js "s3cr3t") in
  let s := snd (addConfig (rt := Small.runtime) (toJs a) blank) in
  fst (getConfig (js "a") s) = Return (Some a)
  /\ secrets s = Some {[ js "a" := js "s3cr3t" ]}
  /\ written (events s)
     = [metadata_text (rt := Small.runtime) [testConfig (js "a") (js "X") []]].
Proof. split; [|split]; vm_compute; reflexivity. Qed.

Lemma add_invalid_changes_nothing_witness :
  let config := JObj [ (js "id", JStr (js "test")); (js "name", JStr (js "Test")) ] in
  fst (addConfig (rt := Small.runtime) config blank) = Throw ZodError
  /\ configs (snd (addConfig (rt := Small.runtime) config blank)) = configs blank
  /\ files (snd (addConfig (rt := Small.runtime) config blank)) = files blank
  /\ secrets (snd (addConfig (rt := Small.runtime) config blank)) = secrets blank
  /\ since blank (snd (addConfig (rt := Small.runtime) config blank))
     = [LogError (js "Invalid configuration, not saving") ZodError].
Proof.
  apply (@add_invalid_changes_nothing Small.runtime).
  intros c. vm_compute. discriminate.
Defined.

(** C3 fails as stated: a file with two profiles of one id, imported into an
    empty collection, adds one profile, not two. *)
Lemma import_duplicate_ids :
  ~ (forall (rt : Runtime) (filePath : jsstring) (pw : option jsstring)
       (s : State) (b : Buffer) (parsed connections : JsValue)
       (validated : list DbConfig),
     files s !! filePath = Some b ->
     parse_file (Utf8.decode b) pw = Return parsed ->
     connections_of parsed = Return connections ->
     parse ConfigFileSchema connections = Return validated ->
     fst (importFromFile filePath pw s)
     = Return (length validated
               - length (List.filter (fun c => known (configs s) (id c)) validated))%nat).
Proof.
  intros H.
  pose (a1 := testConfig (js "a") (js "X") (js "s3cr3t")).
  pose (a2 := testConfig (js "a") (js "Y") (js "other")).
  pose (text := @JSON_stringify Small.runtime (JArr [toJs a1; toJs a2]) 2).
  specialize (H Small.runtime (js "dup.json") None
                (host_with_file (js "dup.json") text [])
                (Utf8.encode text) (JArr [toJs a1; toJs a2])
                (JArr [toJs a1; toJs a2]) [a1; a2]).
  vm_compute in H.
  specialize (H eq_refl eq_refl eq_refl eq_refl). discriminate H.
Qed.

(** The run behind it. *)
Example duplicate_ids_run :
  let a1 := testConfig (js "a") (js "X") (js "s3cr3t") in
  let a2 := testConfig (js "a") (js "Y") (js "other") in
  let text := @JSON_stringify Small.runtime (JArr [toJs a1; toJs a2]) 2 in
  let s := host_with_file (js "dup.json") text [] in
  fst (importFromFile (rt := Small.runtime) (js "dup.json") None s) = Return 1%nat
  /\ configs (snd (importFromFile (rt := Small.runtime) (js "dup.json") None s))
     = [a1].
Proof. split; vm_compute; reflexivity. Qed.

Lemma import_adds_new_profiles_witness :
  let a0 := testConfig (js "a") (js "Mine") (js "s3cr3t") in
  let a1 := testConfig (js "a") (js "Theirs") (js "other") in
  let b1 := testConfig (js "b") (js "New") (js "hunter2") in
  let text := @JSON_stringify Small.runtime (JArr [toJs a1; toJs b1]) 2 in
  let s := host_with_file (js "in.json") text [a0] in
  let s' := snd (importFromFile (rt := Small.runtime) (js "in.json") None s) in
  fst (importFromFile (rt := Small.runtime) (js "in.json") None s) = Return 1%nat
  /\ configs s' = [a0; b1]
  /\ written (since s s') = [metadata_text (rt := Small.runtime) [a0; b1]].
Proof.
  intros a0 a1 b1 text s s'.
  destruct (@import_adds_new_profiles Small.runtime (js "in.json") None s
              (Utf8.encode text) (JArr [toJs a1; toJs b1])
              (JArr [toJs a1; toJs b1]) [a1; b1])
    as (Hr & Hc & _ & Hw).
  - vm_compute. reflexivity.
  - vm_compute. reflexivity.
  - vm_compute. reflexivity.
  - vm_compute. reflexivity.
  - apply (bool_decide_unpack _). vm_compute. exact I.
  - split; [exact Hr | split; [exact Hc | exact Hw]].
Defined.

Lemma import_unparsable_without_password_witness :
  let s := host_with_file (js "settings.enc") (js "ENC:c2FsdA==:aXY=:ZGF0YQ==") [] in
  importFromFile (rt := Small.runtime) (js "settings.enc") None s
  = (Throw EncryptedFileError_new, s).
Proof.
  intros s.
  exact (@import_unparsable_without_password Small.runtime (js "settings.enc")
           None s (Utf8.encode (js "ENC:c2FsdA==:aXY=:ZGF0YQ=="))
           (SyntaxError (js "Unexpected token"))
           ltac:(vm_compute; reflexivity) ltac:(vm_compute; reflexivity)
           ltac:(reflexivity)).
Defined.


(** ** Export, import and restart under the assumed laws *)

Section Transfer.
Context {rt : Runtime} {laws : RuntimeLaws rt}.

Lemma base64_low (b : Buffer) : Forall (fun u => u < 0xD800) (Base64.encode b).
Proof.
  eapply Forall_impl; [apply Base64Facts.base64_ascii|].
  cbn beta. intros. lia.
Qed.

Lemma envelope_well_formed (salt iv encrypted : Buffer) :
  Utf8.well_formed (envelope salt iv encrypted) = true.
Proof.
  apply Utf8Facts.below_surrogates. unfold envelope.
  apply Forall_app; split; [repeat constructor|].
  apply Forall_app; split; [apply base64_low|].
  apply Forall_app; split; [repeat constructor|].
  apply Forall_app; split; [apply base64_low|].
  apply Forall_app; split; [repeat constructor | apply base64_low].
Qed.

Lemma plain_exportData (now : jsstring) (cs : list DbConfig) :
  plain (exportData now cs) = true.
Proof.
  unfold exportData. cbn [plain map fst snd forallb].
  change (forallb plain (map toJs cs)) with (plain (JArr (map toJs cs))).
  rewrite plain_profiles. reflexivity.
Qed.

(** The sealed export: the call returns, the file holds an envelope, and
    the envelope opens to the serialised export data. *)
Lemma exportToFile_sealed (filePath p : jsstring) (plainToo : bool) (s : State) :
  truthy_string p = true -> writable s = true ->
  exists salt iv encrypted,
    fst (exportToFile filePath (Some p) plainToo s) = Return tt
    /\ files (snd (exportToFile filePath (Some p) plainToo s)) !! filePath
       = Some (Utf8.encode (envelope salt iv encrypted))
    /\ decrypt (envelope salt iv encrypted) p
       = Return (JSON_stringify (exportData (clock s) (configs s)) 2).
Proof.
  intros Hp Hw.
  destruct (seal_then_open
              (JSON_stringify (exportData (clock s) (configs s)) 2) p (entropy s))
    as [c [Hs Ho]].
  rewrite Utf8Facts.utf8_roundtrip in Ho by apply JSON_well_formed.
  exists (fst (nonce (entropy s))), (snd (nonce (entropy s))), c.
  unfold exportToFile, mbind, writeFileSync. cbn [negb andb]. rewrite Hp.
  cbn [negb andb].
  destruct (encrypt _ p (entropy s)) as [r e] eqn:He. cbn [fst] in Hs. subst r.
  cbn [writable set_entropy]. rewrite Hw. cbn [fst snd files set_files].
  split; [reflexivity|]. split; [apply lookup_insert_eq | exact Ho].
Qed.

Lemma parse_file_sealed (salt iv encrypted : Buffer) (p : jsstring) (v : JsValue)
    (indent : N) :
  truthy_string p = true -> plain v = true ->
  decrypt (envelope salt iv encrypted) p = Return (JSON_stringify v indent) ->
  parse_file (envelope salt iv encrypted) (Some p) = Return v.
Proof.
  intros Hp Hv Hd. unfold parse_file.
  destruct (JSON_not_sealed (envelope salt iv encrypted)) as [e He];
    [apply startsWith_app|].
  rewrite He, Hp, Hd. cbn [bind]. rewrite JSON_roundtrip by exact Hv.
  reflexivity.
Qed.

Lemma fresh_all (cs validated : list DbConfig) :
  NoDup (map id validated) ->
  (forall c, In c validated -> known cs (id c) = false) ->
  fresh cs validated = validated.
Proof.
  intros Hnd Hnew. rewrite fresh_distinct by exact Hnd.
  induction validated as [|c r IH]; [reflexivity|].
  cbn [List.filter]. rewrite Hnew by (left; reflexivity). cbn [negb].
  f_equal. apply IH.
  - cbn [map] in Hnd. apply NoDup_cons in Hnd. apply Hnd.
  - intros c' Hc'. apply Hnew. right. exact Hc'.
Qed.

(** C4 (as amended): a collection with pairwise distinct ids, exported
    with a non-empty password and [includePlainPasswords = false], gives a
    file whose text starts with the sealed prefix; importing that file with
    the same password into a store that holds none of these ids pushes
    every exported profile, password field included. *)
Theorem sealed_export_then_import (filePath p : jsstring) (s t : State) :
  truthy_string p = true ->
  writable s = true ->
  NoDup (map id (configs s)) ->
  (forall c, In c (configs s) -> known (configs t) (id c) = false) ->
  files t !! filePath
  = files (snd (exportToFile filePath (Some p) false s)) !! filePath ->
  fst (exportToFile filePath (Some p) false s) = Return tt
  /\ (exists text,
        files (snd (exportToFile filePath (Some p) false s)) !! filePath
        = Some (Utf8.encode text)
        /\ startsWith text MSG_PREFIX = true)
  /\ fst (importFromFile filePath (Some p) t) = Return (length (configs s))
  /\ configs (snd (importFromFile filePath (Some p) t))
     = configs t ++ configs s.
Proof.
  intros Hp Hw Hnd Hnew Hfile.
  destruct (exportToFile_sealed filePath p false s Hp Hw)
    as (salt & iv & c & Hr & Hf & Ho).
  split; [exact Hr|]. split.
  { eexists. split; [exact Hf | apply startsWith_app]. }
  rewrite Hf in Hfile.
  assert (E : importFromFile filePath (Some p) t = merge (configs s) t).
  { rewrite importFromFile_eq, Hfile.
    rewrite Utf8Facts.utf8_roundtrip by apply envelope_well_formed.
    unfold mbind, lift.
    rewrite (parse_file_sealed _ _ _ _ _ _ Hp (plain_exportData _ _) Ho).
    change (connections_of (exportData (clock s) (configs s)))
      with (Return (A := JsValue) (JArr (map toJs (configs s)))).
    unfold ConfigFileSchema. rewrite parse_profiles. reflexivity. }
  rewrite E. destruct (merge_spec (configs s) t) as (Hm & Hc & _).
  cbn zeta in *. rewrite (fresh_all _ _ Hnd Hnew) in Hm, Hc.
  split; [exact Hm | exact Hc].
Qed.

Lemma findIndex_lt {A} (f : A -> bool) (l : list A) (i : nat) :
  findIndex f l = Some i -> (i < length l)%nat.
Proof.
  revert i. induction l as [|a l IH]; intros i; cbn; [discriminate|].
  destruct (f a); [intros [= <-]; lia|].
  destruct (findIndex f l) as [j|]; cbn; [|discriminate].
  intros [= <-]. specialize (IH j eq_refl). lia.
Qed.

Lemma updateConfig_eq (config : DbConfig) (s : State) (index : nat) :
  findIndex (fun c => jsstring_eqb (id c) (id config)) (configs s) = Some index ->
  password config = [] ->
  updateConfig config s
  = saveConfigRaw (set_configs (<[index := config]> (configs s)) s).
Proof.
  intros Hi Hp. unfold updateConfig. rewrite Hi, Hp. reflexivity.
Qed.

(** Reading back what [saveConfigRaw] wrote. *)
Lemma loadConfigRaw_written (cs : list DbConfig) (s : State) :
  files s !! configPath s = Some (Utf8.encode (metadata_text cs)) ->
  loadConfigRaw s
  = (Return tt, set_configs (map (fun c => with_password c []) cs) s).
Proof.
  intros Hf. unfold loadConfigRaw, mbind at 1, existsSync.
  rewrite Hf. rewrite bool_decide_eq_true_2 by (eexists; reflexivity).
  cbn [negb]. unfold try_catch, mbind, readFileSync, lift. rewrite Hf.
  rewrite Utf8Facts.utf8_roundtrip by apply JSON_well_formed.
  unfold metadata_text. rewrite JSON_roundtrip by apply plain_profiles.
  unfold ConfigFileSchema. rewrite parse_profiles. reflexivity.
Qed.

Lemma hydrate_spec (m : gmap jsstring jsstring) (cs : list DbConfig) :
  forall s, secrets s = Some m ->
    fst (hydrate cs s) = Return (map (refill m) cs)
    /\ secrets (snd (hydrate cs s)) = Some m.
Proof.
  induction cs as [|c cs IH]; intros s Hs; [split; [reflexivity | exact Hs]|].
  cbn [hydrate map]. unfold mbind at 1 3, KeychainHelper.getPassword.
  rewrite Hs.
  specialize (IH (emit (SecretsGet (id c)) s) Hs). destruct IH as [IHr IHs].
  unfold mbind. destruct (hydrate cs _) as [[r|e] s1]; cbn [fst snd] in *;
    [|discriminate].
  injection IHr as ->. split; [|exact IHs].
  unfold ret, refill. cbn [fst]. destruct (m !! id c) as [secret|];
    [destruct (truthy_string secret)|]; reflexivity.
Qed.

(** C10: an update of an existing id with an empty password replaces the
    profile in the collection and writes the metadata; the write is the
    only event, so the vault is neither stored to nor deleted from and
    keeps the secret it had for that id; the next init, in the same process
    or after a restart (constructor, then init), gives the profile that
    secret as its password. *)
Theorem update_without_password_keeps_secret
    (homedir : jsstring) (config : DbConfig) (s : State) (index : nat)
    (m : gmap jsstring jsstring) (secret : jsstring) :
  configPath s = homedir ++ CONFIG_FILE_NAME ->
  writable s = true ->
  findIndex (fun c => jsstring_eqb (id c) (id config)) (configs s) = Some index ->
  password config = [] ->
  secrets s = Some m ->
  m !! id config = Some secret ->
  secret <> [] ->
  let s1 := snd (updateConfig config s) in
  let s2 := snd ((ConfigManager_new homedir ;; init) s1) in
  fst (updateConfig config s) = Return tt
  /\ configs s1 = <[index := config]> (configs s)
  /\ since s s1 = [FsWrite (configPath s) (metadata_text (configs s1)) MODE_0600]
  /\ List.filter is_vault_call (since s s1) = []
  /\ secrets s1 = Some m
  /\ configs (snd (init s1)) !! index = Some (with_password config secret)
  /\ configs s2 !! index = Some (with_password config secret).
Proof.
  intros Hpath Hw Hi Hp Hs Hm Hne. cbn zeta.
  rewrite (updateConfig_eq _ _ _ Hi Hp), saveConfigRaw_eq.
  cbn [fst snd writable set_configs configPath configs]. rewrite Hw.
  split; [reflexivity|]. split; [reflexivity|].
  split; [apply since_app; reflexivity|].
  split; [erewrite since_app by reflexivity; reflexivity|].
  split; [exact Hs|].
  set (cs := <[index := config]> (configs s)).
  set (s1 := set_files _ _).
  assert (Hcs : map (refill m) cs !! index = Some (with_password config secret)).
  { rewrite list_lookup_fmap. subst cs.
    rewrite list_lookup_insert_eq by (eapply findIndex_lt, Hi).
    cbn [fmap option_fmap option_map]. f_equal.
    unfold refill. rewrite Hm.
    rewrite (proj2 (truthy_string_nonempty secret) Hne). reflexivity. }
  assert (Hst : map (refill m) (map (fun c => with_password c []) cs) !! index
                = Some (with_password config secret)).
  { rewrite !list_lookup_fmap. subst cs.
    rewrite list_lookup_insert_eq by (eapply findIndex_lt, Hi).
    cbn [fmap option_fmap option_map]. f_equal.
    unfold refill. cbn [id with_password]. rewrite Hm.
    rewrite (proj2 (truthy_string_nonempty secret) Hne). reflexivity. }
  split.
  - unfold init, loadPasswordsFromKeychain, mbind.
    destruct (hydrate_spec m (configs s1) s1 Hs) as [Hr _].
    destruct (hydrate (configs s1) s1) as [[r|e] s3]; cbn [fst] in Hr;
      [|discriminate].
    injection Hr as ->. exact Hcs.
  - unfold mbind, ConfigManager_new.
    rewrite (loadConfigRaw_written cs).
    2:{ cbn [configPath set_configs set_configPath files]. subst s1.
        cbn [files set_files]. rewrite <- Hpath. apply lookup_insert_eq. }
    unfold init, loadPasswordsFromKeychain, mbind.
    match goal with
    | |- context [hydrate ?l ?st] =>
        destruct (hydrate_spec m l st Hs) as [Hr _];
        destruct (hydrate l st) as [[r|e] s3]; cbn [fst] in Hr; [|discriminate]
    end.
    injection Hr as ->. exact Hst.
Qed.

End Transfer.

(** C4 fails as stated: a collection that holds two profiles under one id,
    exported under a password and imported with it into an empty store,
    comes back as one profile. *)
Lemma sealed_export_duplicate_ids :
  ~ (forall (rt : Runtime), RuntimeLaws rt ->
     forall (filePath p : jsstring) (s t : State),
     truthy_string p = true ->
     writable s = true ->
     configs t = [] ->
     files t !! filePath
     = files (snd (exportToFile filePath (Some p) false s)) !! filePath ->
     configs (snd (importFromFile filePath (Some p) t)) = configs s).
Proof.
  intros H.
  pose (a1 := testConfig (js "a") (js "X") (js "s3cr3t")).
  pose (a2 := testConfig (js "a") (js "Y") (js "other")).
  pose (s := set_configs [a1; a2] blank).
  specialize (H Small.runtime SmallFacts.laws (js "backup.enc") (js "hunter2") s
                (set_configs []
                   (snd (exportToFile (rt := Small.runtime) (js "backup.enc")
                           (Some (js "hunter2")) false s)))
                eq_refl eq_refl eq_refl eq_refl).
  vm_compute in H. discriminate H.
Qed.

(** The run behind it: the second profile of id [a] is lost. *)
Example sealed_duplicate_ids_run :
  let a1 := testConfig (js "a") (js "X") (js "s3cr3t") in
  let a2 := testConfig (js "a") (js "Y") (js "other") in
  let s := set_configs [a1; a2] blank in
  let s' := snd (exportToFile (rt := Small.runtime) (js "backup.enc")
                   (Some (js "hunter2")) false s) in
  fst (importFromFile (rt := Small.runtime) (js "backup.enc")
         (Some (js "hunter2")) (set_configs [] s')) = Return 1%nat
  /\ configs (snd (importFromFile (rt := Small.runtime) (js "backup.enc")
                     (Some (js "hunter2")) (set_configs [] s'))) = [a1].
Proof. split; vm_compute; reflexivity. Qed.

Lemma sealed_export_then_import_witness :
  let a1 := testConfig (js "a") (js "X") (js "s3cr3t") in
  let b1 := testConfig (js "b") (js "Y") (js "other") in
  let s := set_configs [a1; b1] blank in
  let s' := snd (exportToFile (rt := Small.runtime) (js "backup.enc")
                   (Some (js "hunter2")) false s) in
  let t := set_configs [] s' in
  fst (importFromFile (rt := Small.runtime) (js "backup.enc")
         (Some (js "hunter2")) t) = Return 2%nat
  /\ configs (snd (importFromFile (rt := Small.runtime) (js "backup.enc")
                     (Some (js "hunter2")) t)) = [a1; b1].
Proof.
  intros a1 b1 s s' t.
  destruct (@sealed_export_then_import Small.runtime SmallFacts.laws
              (js "backup.enc") (js "hunter2") s t)
    as (_ & _ & Hr & Hc).
  - reflexivity.
  - reflexivity.
  - apply (bool_decide_unpack _). vm_compute. exact I.
  - intros c Hc. reflexivity.
  - reflexivity.
  - split; [exact Hr | exact Hc].
Defined.

Lemma update_without_password_keeps_secret_witness :
  let vault : gmap jsstring jsstring := {[ js "a" := js "s3cr3t" ]} in
  let s := set_secrets vault (set_configs [testConfig (js "a") (js "X") (js "s3cr3t")] blank) in
  let config := testConfig (js "a") (js "Renamed") [] in
  let s1 := snd (updateConfig (rt := Small.runtime) config s) in
  let s2 := snd ((ConfigManager_new (rt := Small.runtime) (js "/home/op") ;; init)%M s1) in
  since s s1
  = [FsWrite (configPath s) (metadata_text (rt := Small.runtime) (configs s1)) MODE_0600]
  /\ secrets s1 = Some vault
  /\ configs s2 !! 0%nat = Some (testConfig (js "a") (js "Renamed") (js "s3cr3t")).
Proof.
  intros vault s config s1 s2.
  destruct (@update_without_password_keeps_secret Small.runtime SmallFacts.laws
              (js "/home/op") config s 0%nat vault (js "s3cr3t"))
    as (_ & _ & Hev & _ & Hs & _ & Hc).
  - reflexivity.
  - reflexivity.
  - reflexivity.
  - reflexivity.
  - reflexivity.
  - vm_compute. reflexivity.
  - discriminate.
  - split; [exact Hev | split; [exact Hs | exact Hc]].
Defined.

(** * Further properties *)

(** ** The store: add, get, remove, update *)

Section StoreMore.
Context {rt : Runtime}.

Lemma seed_eq (c : DbConfig) (s : State) :
  seed c s
  = (Return tt,
     if truthy_string (password c) then
       match secrets s with
       | None =>
           emit (LogError (js "Failed to save password to keychain")
                   (Error (js "Bun.secrets API is not available"))) s
       | Some m =>
           set_secrets (<[id c := password c]> m)
             (emit (SecretsSet (id c) (password c)) s)
       end
     else s).
Proof.
  unfold seed, when, mbind, KeychainHelper.setPassword, ret.
  destruct (truthy_string (password c)); [|reflexivity].
  destruct (secrets s); reflexivity.
Qed.






Lemma jsstring_eqb_sym (a b : jsstring) : jsstring_eqb a b = jsstring_eqb b a.
Proof.
  destruct (jsstring_eqb a b) eqn:E; symmetry.
  - apply jsstring_eqb_eq. symmetry. apply jsstring_eqb_eq, E.
  - apply jsstring_eqb_neq. intros ->. apply jsstring_eqb_neq in E. auto.
Qed.



Lemma saveConfigRaw_no_vault_call (s : State) :
  List.filter is_vault_call (since s (snd (saveConfigRaw s))) = [].
Proof.
  rewrite saveConfigRaw_eq. cbn [snd]. unfold since.
  destruct (writable s); cbn [events emit set_files];
    rewrite <- ?app_assoc, drop_app_length; reflexivity.
Qed.








Lemma findIndex_known (cs : list DbConfig) (i : jsstring) :
  known cs i
  = match findIndex (fun c => jsstring_eqb (id c) i) cs with
    | Some _ => true
    | None => false
    end.
Proof.
  induction cs as [|c cs IH]; [reflexivity|].
  cbn [known existsb findIndex]. destruct (jsstring_eqb (id c) i); [reflexivity|].
  cbn [orb]. fold (known cs i). rewrite IH.
  destruct (findIndex _ cs); reflexivity.
Qed.


Lemma updateConfig_known (config : DbConfig) (s : State) (index : nat) :
  findIndex (fun c => jsstring_eqb (id c) (id config)) (configs s) = Some index ->
  updateConfig config s
  = saveConfigRaw
      (set_configs (<[index := config]> (configs (snd (seed config s))))
         (snd (seed config s))).
Proof.
  intros Hi. unfold updateConfig. rewrite Hi. fold (seed config).
  unfold mbind at 1. rewrite seed_eq. cbn [fst snd]. reflexivity.
Qed.

(** X5: update of an id the collection does not have is no operation at
    all: it returns and the state, events included, is the one before. *)
Theorem update_unknown_is_noop (config : DbConfig) (s : State) :
  known (configs s) (id config) = false ->
  updateConfig config s = (Return tt, s).
Proof.
  rewrite findIndex_known. unfold updateConfig.
  destruct (findIndex _ (configs s)); [discriminate | reflexivity].
Qed.


End StoreMore.

(** ** Import *)

Section ImportMore.
Context {rt : Runtime}.

(** Import either throws and leaves the state alone, or is the merge of the
    profiles the file validates to. *)
Lemma import_cases (filePath : jsstring) (pw : option jsstring) (s : State) :
  (exists e, importFromFile filePath pw s = (Throw e, s))
  \/ (exists b parsed connections validated,
        files s !! filePath = Some b
        /\ parse_file (Utf8.decode b) pw = Return parsed
        /\ connections_of parsed = Return connections
        /\ parse ConfigFileSchema connections = Return validated
        /\ importFromFile filePath pw s = merge validated s).
Proof.
  rewrite importFromFile_eq.
  destruct (files s !! filePath) as [b|] eqn:Hf; [|left; eexists; reflexivity].
  unfold mbind, lift.
  destruct (parse_file (Utf8.decode b) pw) as [parsed|e] eqn:Hp;
    [|left; eexists; reflexivity].
  destruct (connections_of parsed) as [connections|e] eqn:Hc;
    [|left; eexists; reflexivity].
  destruct (parse ConfigFileSchema connections) as [validated|e] eqn:Hv;
    [|left; eexists; reflexivity].
  right. exists b, parsed, connections, validated. repeat split; assumption.
Qed.

(** X7: import is all or nothing: whenever it throws (no file, no parse,
    wrong password, a value of the wrong shape, one invalid profile) the
    state is exactly the one before, with no event recorded. *)
Theorem import_all_or_nothing
    (filePath : jsstring) (pw : option jsstring) (s : State) (e : Exn) :
  fst (importFromFile filePath pw s) = Throw e ->
  snd (importFromFile filePath pw s) = s.
Proof.
  intros He.
  destruct (import_cases filePath pw s)
    as [[e' ->] | (b & parsed & connections & validated & _ & _ & _ & _ & E)];
    [reflexivity|].
  rewrite E in He. destruct (merge_spec validated s) as (Hr & _).
  cbn zeta in Hr. rewrite Hr in He. discriminate He.
Qed.

Lemma known_ids (cs : list DbConfig) (i : jsstring) :
  known cs i = false <-> ~ In i (map id cs).
Proof.
  rewrite <- known_in. destruct (known cs i); split; congruence.
Qed.

Lemma fresh_unique (validated cs : list DbConfig) :
  NoDup (map id cs) -> NoDup (map id (cs ++ fresh cs validated)).
Proof.
  revert cs. induction validated as [|c r IH]; intros cs Hnd.
  - cbn [fresh]. rewrite app_nil_r. exact Hnd.
  - cbn [fresh]. destruct (known cs (id c)) eqn:Hk; [apply IH, Hnd|].
    change (cs ++ c :: fresh (cs ++ [c]) r)
      with (cs ++ [c] ++ fresh (cs ++ [c]) r).
    rewrite app_assoc. apply IH.
    rewrite map_app. cbn [map]. apply NoDup_app.
    split; [exact Hnd|]. split; [|apply NoDup_singleton].
    intros i Hi Hin. apply list_elem_of_singleton in Hin. subst i.
    apply known_ids in Hk. apply Hk, list_elem_of_In, Hi.
Qed.

(** X8: import never creates a duplicate id: if the ids of the collection
    are pairwise distinct before, they are after, whatever the file holds
    (ids repeated inside the file included) and however the call ends. *)
Theorem import_keeps_ids_unique
    (filePath : jsstring) (pw : option jsstring) (s : State) :
  NoDup (map id (configs s)) ->
  NoDup (map id (configs (snd (importFromFile filePath pw s)))).
Proof.
  intros Hnd.
  destruct (import_cases filePath pw s)
    as [[e ->] | (b & parsed & connections & validated & _ & _ & _ & _ & ->)];
    [exact Hnd|].
  destruct (merge_spec validated s) as (_ & -> & _).
  apply fresh_unique, Hnd.
Qed.

Lemma fresh_makes_known (validated cs : list DbConfig) (c : DbConfig) :
  In c validated -> known (cs ++ fresh cs validated) (id c) = true.
Proof.
  revert cs. induction validated as [|x r IH]; intros cs; [intros []|].
  cbn [fresh]. destruct (known cs (id x)) eqn:Hk; intros [->|Hc].
  - rewrite known_app, Hk. reflexivity.
  - apply IH, Hc.
  - rewrite known_app. cbn [known existsb]. rewrite jsstring_eqb_refl.
    apply orb_true_r.
  - change (cs ++ x :: fresh (cs ++ [x]) r)
      with (cs ++ [x] ++ fresh (cs ++ [x]) r).
    rewrite app_assoc. apply IH, Hc.
Qed.

Lemma import_loop_nothing_new (validated : list DbConfig) (n : nat) (s : State) :
  (forall c, In c validated -> known (configs s) (id c) = true) ->
  import_loop validated n s = (Return n, s).
Proof.
  induction validated as [|c r IH]; intros Hall; [reflexivity|].
  rewrite import_loop_known by (apply Hall; left; reflexivity).
  apply IH. intros c' Hc'. apply Hall. right. exact Hc'.
Qed.

Lemma merge_frame (validated : list DbConfig) (s : State) (path : jsstring) :
  path <> configPath s ->
  files (snd (merge validated s)) !! path = files s !! path.
Proof.
  intros Hne. rewrite merge_eq.
  destruct (import_loop_spec validated 0 s) as (_ & _ & Hp & Hw & Hf & _).
  destruct (import_loop validated 0 s) as [[n|e] s1]; cbn [fst snd] in *;
    [|rewrite Hf; reflexivity].
  destruct (0 <? n)%nat; [|rewrite Hf; reflexivity].
  rewrite saveConfigRaw_eq. cbn [snd].
  destruct (writable s1); cbn [files set_files emit]; rewrite ?Hf; [|reflexivity].
  apply lookup_insert_ne. congruence.
Qed.

(** X9: importing the same file a second time adds nothing: when a first
    import of a file other than the metadata file returns, a second import
    of it with the same password returns zero and leaves the state, events
    included, as the first left it. *)
Theorem import_twice_adds_nothing
    (filePath : jsstring) (pw : option jsstring) (s : State) (n : nat) :
  filePath <> configPath s ->
  fst (importFromFile filePath pw s) = Return n ->
  importFromFile filePath pw (snd (importFromFile filePath pw s))
  = (Return 0%nat, snd (importFromFile filePath pw s)).
Proof.
  intros Hne Hr.
  destruct (import_cases filePath pw s)
    as [[e E] | (b & parsed & connections & validated & Hf & Hp & Hc & Hv & E)].
  { rewrite E in Hr. discriminate Hr. }
  rewrite E. rewrite importFromFile_eq, (merge_frame _ _ _ Hne), Hf.
  unfold mbind at 1 2 3, lift. rewrite Hp, Hc, Hv.
  rewrite merge_eq at 1.
  rewrite import_loop_nothing_new; [reflexivity|].
  intros c Hin. destruct (merge_spec validated s) as (_ & -> & _).
  apply fresh_makes_known, Hin.
Qed.

Lemma traverse_throws_at {A B} (f : A -> Completion B) (l : list A) (a : A) :
  In a l -> (forall b, f a <> Return b) ->
  exists x e, In x l /\ f x = Throw e /\ traverse f l = Throw e.
Proof.
  induction l as [|x l IH]; [intros []|].
  intros Hin Hbad. cbn [traverse].
  destruct (f x) as [b|e] eqn:Hx.
  - destruct Hin as [->|Hin]; [exfalso; eapply Hbad, Hx|].
    destruct (IH Hin Hbad) as (y & e & Hy & Hfy & Ht).
    exists y, e. split; [right; exact Hy|]. split; [exact Hfy|].
    cbn [bind]. rewrite Ht. reflexivity.
  - exists x, e. split; [left; reflexivity|]. split; [exact Hx | reflexivity].
Qed.

(** X10: validation is of the whole batch: if the value to import is an
    array in which one entry does not pass the profile schema, import throws
    the schema error and nothing is added, not even the valid entries before
    it. *)
Theorem import_rejects_whole_batch
    (filePath : jsstring) (pw : option jsstring) (s : State) (b : Buffer)
    (parsed : JsValue) (items : list JsValue) (item : JsValue) :
  files s !! filePath = Some b ->
  parse_file (Utf8.decode b) pw = Return parsed ->
  connections_of parsed = Return (JArr items) ->
  In item items ->
  (forall c, parse DbConfigSchema item <> Return c) ->
  importFromFile filePath pw s = (Throw ZodError, s).
Proof.
  intros Hf Hp Hc Hin Hbad.
  rewrite importFromFile_eq, Hf. unfold mbind, lift. rewrite Hp, Hc.
  unfold ConfigFileSchema, parse at 1. cbn [z.array].
  destruct (traverse_throws_at (fun i => DbConfigSchema (Some i)) items item Hin Hbad)
    as (x & e & _ & Hx & ->).
  apply (DbConfigSchema_throws x) in Hx. subst e. reflexivity.
Qed.

Lemma decrypt_unsealed (text password : jsstring) :
  startsWith text MSG_PREFIX = false ->
  decrypt text password = Throw Invalid_encrypted_format.
Proof. intros H. unfold decrypt. rewrite H. reflexivity. Qed.

(** X11: with a password given, every failure to get a value out of a text
    that does not parse as it stands ends in one and the same error, and
    the state is untouched: a text without the sealed prefix (for which
    [decrypt] throws its format error), a seal that does not open, a seal
    that opens to something that does not parse. *)
Theorem import_with_password_fails_alike
    (filePath p : jsstring) (s : State) (b : Buffer) (e : Exn) :
  files s !! filePath = Some b ->
  JSON_parse (Utf8.decode b) = Throw e ->
  truthy_string p = true ->
  startsWith (Utf8.decode b) MSG_PREFIX = false
  \/ (forall v, bind (decrypt (Utf8.decode b) p) JSON_parse <> Return v) ->
  importFromFile filePath (Some p) s
  = (Throw (Error (js "Invalid password or corrupted file")), s).
Proof.
  intros Hf Hj Hp Hbad.
  rewrite importFromFile_eq, Hf. unfold mbind, lift, parse_file.
  rewrite Hj, Hp.
  destruct (bind (decrypt (Utf8.decode b) p) JSON_parse) as [v|e'] eqn:Hd;
    [|reflexivity].
  exfalso. destruct Hbad as [Hu | Hn]; [|eapply Hn; reflexivity].
  rewrite (decrypt_unsealed _ _ Hu) in Hd. discriminate Hd.
Qed.

(** X12: a file whose text parses as JSON is imported as it stands: a
    password given along is not looked at, no seal is opened. *)
Theorem import_of_json_ignores_password
    (filePath : jsstring) (pw : option jsstring) (s : State) (b : Buffer)
    (v : JsValue) :
  files s !! filePath = Some b ->
  JSON_parse (Utf8.decode b) = Return v ->
  importFromFile filePath pw s = importFromFile filePath None s.
Proof.
  intros Hf Hj. rewrite !importFromFile_eq, Hf. unfold mbind at 1 5, lift at 1 5.
  unfold parse_file. rewrite Hj. reflexivity.
Qed.

End ImportMore.

(** ** Export *)

Section ExportMore.
Context {rt : Runtime}.

Lemma exportToFile_plain (filePath : jsstring) (pw : option jsstring)
    (plainToo : bool) (s : State) :
  supplied pw = false ->
  exportToFile filePath pw plainToo s
  = writeFileSync filePath
      (JSON_stringify
         (exportData (clock s)
            (if plainToo then configs s else map strip (configs s))) 2)
      MODE_0600 s.
Proof.
  intros Hp. unfold exportToFile, supplied in *.
  destruct pw as [p|]; rewrite ?Hp; destruct plainToo; reflexivity.
Qed.

Lemma set_entropy_same (s : State) : set_entropy (entropy s) s = s.
Proof. destruct s; reflexivity. Qed.

(** Export is one write of some text, on the state with the entropy tape
    advanced, or the throw of the cipher. *)
Lemma exportToFile_cases
    (filePath : jsstring) (pw : option jsstring) (plainToo : bool) (s : State) :
  exists tape,
    (exists data,
       exportToFile filePath pw plainToo s
       = writeFileSync filePath data MODE_0600 (set_entropy tape s))
    \/ (exists e,
          exportToFile filePath pw plainToo s = (Throw e, set_entropy tape s)).
Proof.
  unfold exportToFile, mbind.
  set (json := JSON_stringify _ 2). clearbody json.
  assert (P : exists tape,
    (exists data,
       (let (c, s') := ret (A := jsstring) json s in
        match c with
        | Return a => writeFileSync filePath a MODE_0600 s'
        | Throw e => (Throw e, s')
        end)
       = writeFileSync filePath data MODE_0600 (set_entropy tape s))
    \/ (exists e,
          (let (c, s') := ret (A := jsstring) json s in
           match c with
           | Return a => writeFileSync filePath a MODE_0600 s'
           | Throw e => (Throw e, s')
           end)
          = (Throw e, set_entropy tape s))).
  { exists (entropy s). left. exists json. rewrite set_entropy_same.
    reflexivity. }
  destruct pw as [p|]; [|exact P].
  destruct (truthy_string p); [|exact P].
  destruct (encrypt json p (entropy s)) as [[text|e] tape]; exists tape.
  - left. exists text. reflexivity.
  - right. exists e. reflexivity.
Qed.

(** X13: export reads the collection and writes one file: the collection,
    the vault and the instance path are as before, every other file is as
    before, and at most one event is added, a write to the given path with
    mode 0600 (none only if the cipher throws); on a disk that refuses the
    write the call throws and no file changes. *)
Theorem export_touches_one_file
    (filePath : jsstring) (pw : option jsstring) (plainToo : bool) (s : State) :
  let s' := snd (exportToFile filePath pw plainToo s) in
  configs s' = configs s
  /\ secrets s' = secrets s
  /\ configPath s' = configPath s
  /\ (forall path, path <> filePath -> files s' !! path = files s !! path)
  /\ (since s s' = [] \/ exists data, since s s' = [FsWrite filePath data MODE_0600])
  /\ (writable s = false ->
      files s' = files s
      /\ exists e, fst (exportToFile filePath pw plainToo s) = Throw e).
Proof.
  cbn zeta.
  destruct (exportToFile_cases filePath pw plainToo s)
    as (tape & [(data & ->) | (e & ->)]).
  - unfold writeFileSync. cbn [writable set_entropy].
    destruct (writable s);
      cbn [fst snd configs secrets configPath files emit set_files set_entropy].
    + do 3 (split; [reflexivity|]). split.
      { intros path Hne. apply lookup_insert_ne. congruence. }
      split; [|discriminate]. right. exists data. apply since_app. reflexivity.
    + do 4 (split; [reflexivity|]). split.
      { right. exists data. apply since_app. reflexivity. }
      intros _. split; [reflexivity | eexists; reflexivity].
  - cbn [fst snd]. do 4 (split; [reflexivity|]). split.
    + left. apply since_app. cbn [events set_entropy].
      rewrite app_nil_r. reflexivity.
    + intros _. split; [reflexivity | eexists; reflexivity].
Qed.

End ExportMore.

Section ExportLaws.
Context {rt : Runtime} {laws : RuntimeLaws rt}.

Lemma strip_ids (cs : list DbConfig) : map id (map strip cs) = map id cs.
Proof. rewrite map_map. reflexivity. Qed.

(** X14: the export without a password and the import of its file: the
    file is plain JSON (it does not start with the sealed prefix); import,
    with or without a password, pushes every exported profile, with the
    password field emptied unless the export was told to include the
    passwords. *)
Theorem plain_export_then_import
    (filePath : jsstring) (pw pw' : option jsstring) (plainToo : bool)
    (s t : State) :
  supplied pw = false ->
  writable s = true ->
  NoDup (map id (configs s)) ->
  (forall c, In c (configs s) -> known (configs t) (id c) = false) ->
  files t !! filePath
  = files (snd (exportToFile filePath pw plainToo s)) !! filePath ->
  fst (exportToFile filePath pw plainToo s) = Return tt
  /\ (exists text,
        files (snd (exportToFile filePath pw plainToo s)) !! filePath
        = Some (Utf8.encode text)
        /\ startsWith text MSG_PREFIX = false)
  /\ fst (importFromFile filePath pw' t) = Return (length (configs s))
  /\ configs (snd (importFromFile filePath pw' t))
     = configs t ++ (if plainToo then configs s else map strip (configs s)).
Proof.
  intros Hp Hw Hnd Hnew Hfile.
  rewrite (exportToFile_plain _ _ _ _ Hp) in *.
  set (out := if plainToo then configs s else map strip (configs s)) in *.
  assert (Hids : map id out = map id (configs s)).
  { unfold out. destruct plainToo; [reflexivity | apply strip_ids]. }
  unfold writeFileSync in *. rewrite Hw in *.
  cbn [fst snd files set_files emit] in *. rewrite lookup_insert_eq in *.
  split; [reflexivity|]. split.
  { eexists. split; [reflexivity|].
    destruct (startsWith _ MSG_PREFIX) eqn:Hs; [|reflexivity].
    destruct (JSON_not_sealed _ Hs) as [e He].
    rewrite JSON_roundtrip in He by apply plain_exportData. discriminate He. }
  assert (E : importFromFile filePath pw' t = merge out t).
  { rewrite importFromFile_eq, Hfile.
    rewrite Utf8Facts.utf8_roundtrip by apply JSON_well_formed.
    unfold mbind, lift, parse_file.
    rewrite JSON_roundtrip by apply plain_exportData.
    change (connections_of (exportData (clock s) out))
      with (Return (A := JsValue) (JArr (map toJs out))).
    unfold ConfigFileSchema. rewrite parse_profiles. reflexivity. }
  rewrite E. destruct (merge_spec out t) as (Hm & Hc & _).
  cbn zeta in *.
  assert (Hall : fresh (configs t) out = out).
  { apply fresh_all; [rewrite Hids; exact Hnd|].
    intros c Hc'. unfold out in Hc'. destruct plainToo; [apply Hnew, Hc'|].
    apply in_map_iff in Hc'. destruct Hc' as (c0 & <- & Hc0).
    apply (Hnew c0 Hc0). }
  rewrite Hall in Hm, Hc. split; [|exact Hc].
  rewrite Hm. rewrite <- (length_map id out), Hids, length_map. reflexivity.
Qed.

End ExportLaws.

(** ** The constructor, init and a new process *)

Section Lifecycle.
Context {rt : Runtime}.


Lemma hydrate_frame (cs : list DbConfig) (s : State) :
  exists evs,
    hydrate cs s
    = (Return (map (refilled (secrets s)) cs),
       match secrets s with
       | Some _ =>
           {| configPath := configPath s; configs := configs s; files := files s;
              writable := writable s; secrets := secrets s; entropy := entropy s;
              clock := clock s; events := events s ++ evs |}
       | None => s
       end)
    /\ evs = map (fun c => SecretsGet (id c)) cs.
Proof.
  eexists. split; [|reflexivity].
  revert s. induction cs as [|c cs IH]; intros s.
  - cbn [hydrate map]. unfold ret. rewrite app_nil_r.
    destruct s as [? ? ? ? [m|] ? ? ?]; reflexivity.
  - cbn [hydrate map]. unfold mbind at 1, KeychainHelper.getPassword.
    destruct (secrets s) as [m|] eqn:Hs.
    + unfold mbind. rewrite IH. cbn [secrets emit]. rewrite Hs.
      unfold ret. cbn [refilled configPath configs files writable secrets
                         entropy clock events emit].
      rewrite <- app_assoc. f_equal. f_equal. f_equal. unfold refill.
      destruct (m !! id c) as [secret|]; [destruct (truthy_string secret)|];
        reflexivity.
    + unfold mbind. rewrite IH, Hs. reflexivity.
Qed.

Lemma strip_refilled (vault : option (gmap jsstring jsstring)) (c : DbConfig) :
  strip (refilled vault c) = strip c.
Proof.
  destruct vault as [m|]; [|reflexivity]. cbn [refilled]. unfold refill.
  destruct (m !! id c) as [secret|]; [destruct (truthy_string secret)|];
    reflexivity.
Qed.

Lemma id_refilled (vault : option (gmap jsstring jsstring)) (c : DbConfig) :
  id (refilled vault c) = id c.
Proof. exact (f_equal id (strip_refilled vault c)). Qed.

Lemma refilled_twice (vault : option (gmap jsstring jsstring)) (c : DbConfig) :
  refilled vault (refilled vault c) = refilled vault c.
Proof.
  destruct vault as [m|]; [|reflexivity]. cbn [refilled]. unfold refill at 1.
  change (id (refill m c)) with (id (refilled (Some m) c)).
  rewrite id_refilled. unfold refill.
  destruct (m !! id c) as [secret|]; [destruct (truthy_string secret)|];
    reflexivity.
Qed.

Lemma init_eq (s : State) :
  init s
  = (Return tt,
     set_configs (map (refilled (secrets s)) (configs s))
       match secrets s with
       | Some _ =>
           {| configPath := configPath s; configs := configs s; files := files s;
              writable := writable s; secrets := secrets s; entropy := entropy s;
              clock := clock s;
              events := events s ++ map (fun c => SecretsGet (id c)) (configs s) |}
       | None => s
       end).
Proof.
  unfold init, loadPasswordsFromKeychain, mbind.
  destruct (hydrate_frame (configs s) s) as (evs & -> & ->). reflexivity.
Qed.


(** X16: a second init changes no profile: the collection after two inits
    is the collection after one. *)
Theorem init_twice_same_profiles (s : State) :
  configs (snd (init (snd (init s)))) = configs (snd (init s)).
Proof.
  rewrite (init_eq (snd (init s))). rewrite init_eq.
  cbn [snd configs set_configs].
  assert (Hs : forall t cs, secrets (set_configs cs t) = secrets t)
    by reflexivity.
  rewrite Hs.
  destruct (secrets s) eqn:E; cbn [secrets]; rewrite ?E;
    rewrite map_map; apply map_ext; intros c; apply refilled_twice.
Qed.

Lemma loadConfigRaw_eq (s : State) :
  loadConfigRaw s
  = match files s !! configPath s with
    | None => (Return tt, s)
    | Some b =>
        match bind (JSON_parse (Utf8.decode b)) (parse ConfigFileSchema) with
        | Return loaded => (Return tt, set_configs loaded s)
        | Throw e =>
            (Return tt,
             set_configs [] (emit (LogError (js "Error loading config") e) s))
        end
    end.
Proof.
  unfold loadConfigRaw, mbind at 1, existsSync.
  destruct (files s !! configPath s) as [b|] eqn:Hf.
  - rewrite bool_decide_eq_true_2 by (eexists; reflexivity). cbn [negb].
    unfold try_catch, mbind, readFileSync, lift, logError. cbn beta.
    rewrite Hf.
    destruct (JSON_parse (Utf8.decode b)) as [parsed|e]; cbn [bind];
      [|reflexivity].
    destruct (parse ConfigFileSchema parsed); reflexivity.
  - rewrite bool_decide_eq_false_2; [reflexivity|].
    intros [x Hx]. discriminate Hx.
Qed.

(** X17: the constructor never throws and never writes: whatever is at the
    metadata path, it returns; files and vault are as before and no write
    and no vault call reaches the host; the collection is what the file
    validates to, and empty when there is no file, when the file does not
    parse or when one entry does not pass the schema (then with one log
    line). *)
Theorem constructor_never_throws_or_writes (homedir : jsstring) (s : State) :
  let path := homedir ++ CONFIG_FILE_NAME in
  let s' := snd (ConfigManager_new homedir s) in
  fst (ConfigManager_new homedir s) = Return tt
  /\ configPath s' = path
  /\ files s' = files s
  /\ secrets s' = secrets s
  /\ written (since s s') = []
  /\ List.filter is_vault_call (since s s') = []
  /\ ((exists b parsed,
         files s !! path = Some b
         /\ JSON_parse (Utf8.decode b) = Return parsed
         /\ parse ConfigFileSchema parsed = Return (configs s')
         /\ since s s' = [])
      \/ (files s !! path = None /\ configs s' = [] /\ since s s' = [])
      \/ (exists b e,
            files s !! path = Some b
            /\ bind (JSON_parse (Utf8.decode b)) (parse ConfigFileSchema) = Throw e
            /\ configs s' = []
            /\ since s s' = [LogError (js "Error loading config") e])).
Proof.
  cbn zeta. unfold ConfigManager_new.
  set (s0 := set_configs [] (set_configPath (homedir ++ CONFIG_FILE_NAME) s)).
  assert (Hnil : since s s0 = []).
  { apply since_app. cbn. rewrite app_nil_r. reflexivity. }
  rewrite loadConfigRaw_eq.
  change (files s0 !! configPath s0)
    with (files s !! (homedir ++ CONFIG_FILE_NAME)).
  destruct (files s !! (homedir ++ CONFIG_FILE_NAME)) as [b|] eqn:Hf.
  - destruct (bind (JSON_parse (Utf8.decode b)) (parse ConfigFileSchema))
      as [loaded|e] eqn:Hb; cbn [fst snd]; (split; [reflexivity|]).
    + do 3 (split; [reflexivity|]).
      change (since s (set_configs loaded s0)) with (since s s0). rewrite Hnil.
      do 2 (split; [reflexivity|]). left.
      destruct (JSON_parse (Utf8.decode b)) as [parsed|] eqn:Hj;
        [|discriminate Hb].
      exists b, parsed. split; [reflexivity|]. split; [exact Hj|].
      split; [exact Hb | reflexivity].
    + do 3 (split; [reflexivity|]).
      assert (Hlog :
        since s (set_configs [] (emit (LogError (js "Error loading config") e) s0))
        = [LogError (js "Error loading config") e]).
      { apply since_app. reflexivity. }
      rewrite Hlog. do 2 (split; [reflexivity|]). right. right. exists b, e.
      split; [reflexivity|]. split; [exact Hb|]. split; reflexivity.
  - cbn [fst snd]. split; [reflexivity|]. do 3 (split; [reflexivity|]).
    rewrite Hnil. do 2 (split; [reflexivity|]). right. left. repeat split.
Qed.

End Lifecycle.

Section Restart.
Context {rt : Runtime} {laws : RuntimeLaws rt}.








End Restart.

(** ** What every request keeps *)

Section Guard.
Context {rt : Runtime}.

Lemma guarded_of_written_nil (path : jsstring) (evs : list Event) :
  written evs = [] -> Forall (guarded path) evs.
Proof.
  induction evs as [|ev evs IH]; [constructor|].
  unfold written. cbn [flat_map]. fold (written evs).
  destruct ev; cbn [app]; try discriminate;
    intros H; constructor; try exact I; apply IH, H.
Qed.

Lemma keeps_refl (s : State) : keeps s s.
Proof.
  split; [reflexivity|]. split; [|left; reflexivity].
  exists []. rewrite app_nil_r. split; constructor.
Qed.

Lemma keeps_trans (s1 s2 s3 : State) : keeps s1 s2 -> keeps s2 s3 -> keeps s1 s3.
Proof.
  intros (Hp1 & (ev1 & He1 & Hg1) & Hf1) (Hp2 & (ev2 & He2 & Hg2) & Hf2).
  rewrite Hp1 in *. split; [congruence|]. split.
  - exists (ev1 ++ ev2). rewrite He2, He1, app_assoc. split; [reflexivity|].
    apply Forall_app. split; assumption.
  - destruct Hf2 as [E2 | (t & Ht & E2)].
    + rewrite E2. exact Hf1.
    + right. exists t. split; assumption.
Qed.

Lemma keeps_quiet (s s' : State) : quiet s s' -> keeps s s'.
Proof.
  intros (Hp & _ & Hf & evs & He & Hq). split; [exact Hp|]. split.
  - exists evs. split; [exact He | apply guarded_of_written_nil, Hq].
  - left. rewrite Hf. reflexivity.
Qed.

Lemma keeps_saveConfigRaw (s : State) : keeps s (snd (saveConfigRaw s)).
Proof.
  rewrite saveConfigRaw_eq. cbn [snd].
  pose proof (stripped_metadata (configs s)) as Hs.
  assert (Hg : guarded (configPath s)
                 (FsWrite (configPath s) (metadata_text (configs s)) MODE_0600)).
  { split; [reflexivity | intros _; exact Hs]. }
  destruct (writable s); split; try reflexivity;
    cbn [configPath events files emit set_files]; split.
  - eexists [_]. split; [reflexivity|]. repeat constructor; apply Hg.
  - right. eexists. split; [exact Hs | apply lookup_insert_eq].
  - eexists [_; _]. split; [rewrite <- app_assoc; reflexivity|].
    constructor; [exact Hg|]. repeat constructor.
  - left. reflexivity.
Qed.

Lemma keeping_ret {A} (a : A) : keeping (ret a).
Proof. intros s. apply keeps_refl. Qed.

Lemma keeping_throw {A} (e : Exn) : keeping (throw (A := A) e).
Proof. intros s. apply keeps_refl. Qed.

Lemma keeping_lift {A} (c : Completion A) : keeping (lift c).
Proof. intros s. apply keeps_refl. Qed.

Lemma keeping_bind {A B} (m : M A) (k : A -> M B) :
  keeping m -> (forall a, keeping (k a)) -> keeping (mbind m k).
Proof.
  intros Hm Hk s. unfold mbind. specialize (Hm s).
  destruct (m s) as [[a|e] s1]; cbn [snd] in *; [|exact Hm].
  eapply keeps_trans; [exact Hm | apply Hk].
Qed.

Lemma keeping_try_catch {A} (body : M A) (handler : Exn -> M A) :
  keeping body -> (forall e, keeping (handler e)) ->
  keeping (try_catch body handler).
Proof.
  intros Hm Hk s. unfold try_catch. specialize (Hm s).
  destruct (body s) as [[a|e] s1]; cbn [snd] in *; [exact Hm|].
  eapply keeps_trans; [exact Hm | apply Hk].
Qed.

Lemma keeping_when (b : bool) (m : M unit) : keeping m -> keeping (when b m).
Proof. intros Hm. destruct b; [exact Hm | apply keeping_ret]. Qed.

Lemma keeping_logError (context : jsstring) (e : Exn) :
  keeping (logError context e).
Proof.
  intros s. apply keeps_quiet. repeat split. eexists [_]. split; reflexivity.
Qed.

Lemma keeping_setPassword (account secret : jsstring) :
  keeping (KeychainHelper.setPassword account secret).
Proof.
  intros s. apply keeps_quiet. unfold KeychainHelper.setPassword.
  destruct (secrets s); repeat split; eexists [_]; split; reflexivity.
Qed.

Lemma keeping_deletePassword (account : jsstring) :
  keeping (KeychainHelper.deletePassword account).
Proof.
  intros s. apply keeps_quiet. unfold KeychainHelper.deletePassword.
  destruct (secrets s); [|apply quiet_refl].
  repeat split; eexists [_]; split; reflexivity.
Qed.

Lemma keeping_set_configs (f : State -> list DbConfig) :
  keeping (fun s => (Return tt, set_configs (f s) s)).
Proof. intros s. apply keeps_quiet, quiet_set_configs. Qed.

Lemma keeping_saveConfigRaw : keeping saveConfigRaw.
Proof. intros s. apply keeps_saveConfigRaw. Qed.

Create HintDb keep.
#[local] Hint Resolve keeping_ret keeping_throw keeping_lift keeping_bind
  keeping_try_catch keeping_when keeping_logError keeping_setPassword
  keeping_deletePassword keeping_set_configs keeping_saveConfigRaw : keep.

Lemma keeping_addConfig (config : JsValue) : keeping (addConfig config).
Proof. unfold addConfig, push. auto 10 with keep. Qed.

Lemma keeping_removeConfig (id_ : jsstring) : keeping (removeConfig id_).
Proof.
  unfold removeConfig.
  apply keeping_bind; [apply keeping_set_configs|]. auto 10 with keep.
Qed.

Lemma keeping_updateConfig (config : DbConfig) : keeping (updateConfig config).
Proof.
  intros s. destruct (known (configs s) (id config)) eqn:Hk.
  - rewrite findIndex_known in Hk.
    destruct (findIndex _ (configs s)) as [index|] eqn:Hi; [|discriminate Hk].
    rewrite (updateConfig_known _ _ _ Hi).
    destruct (seed_quiet config s) as (_ & _ & Hq). cbn zeta in Hq.
    fold (seed config) in Hq.
    eapply keeps_trans; [apply keeps_quiet, Hq|].
    eapply keeps_trans; [|apply keeps_saveConfigRaw].
    apply keeps_quiet, quiet_set_configs.
  - unfold updateConfig. rewrite findIndex_known in Hk.
    destruct (findIndex _ (configs s)); [discriminate Hk | apply keeps_refl].
Qed.

Lemma keeping_init : keeping init.
Proof.
  intros s. rewrite init_eq. cbn [snd]. apply keeps_quiet.
  eapply quiet_trans; [|apply quiet_set_configs].
  destruct (secrets s); [|apply quiet_refl].
  repeat split. eexists. split; [reflexivity|].
  induction (configs s) as [|c cs IH]; [reflexivity | exact IH].
Qed.

Lemma keeping_importFromFile (filePath : jsstring) (pw : option jsstring) :
  keeping (importFromFile filePath pw).
Proof.
  intros s.
  destruct (import_cases filePath pw s)
    as [[e ->] | (b & parsed & connections & validated & _ & _ & _ & _ & ->)];
    [apply keeps_refl|].
  rewrite merge_eq.
  destruct (import_loop_spec validated 0 s) as (_ & _ & Hq).
  destruct (import_loop validated 0 s) as [[n|e] s1]; cbn [fst snd] in *;
    [|apply keeps_quiet, Hq].
  destruct (0 <? n)%nat; [|apply keeps_quiet, Hq].
  eapply keeps_trans; [apply keeps_quiet, Hq | apply keeps_saveConfigRaw].
Qed.

Lemma keeps_exportToFile
    (filePath : jsstring) (pw : option jsstring) (plainToo : bool) (s : State) :
  filePath <> configPath s ->
  keeps s (snd (exportToFile filePath pw plainToo s)).
Proof.
  intros Hne.
  destruct (exportToFile_cases filePath pw plainToo s)
    as (tape & [(data & ->) | (e & ->)]).
  - unfold writeFileSync. cbn [writable set_entropy].
    assert (Hg : guarded (configPath s) (FsWrite filePath data MODE_0600)).
    { split; [reflexivity | intros E; contradiction]. }
    destruct (writable s); cbn [snd]; split; try reflexivity; split.
    + eexists [_]. split; [reflexivity|]. repeat constructor; apply Hg.
    + left. cbn [files set_files emit set_entropy configPath].
      apply lookup_insert_ne. exact Hne.
    + eexists [_]. split; [reflexivity|]. repeat constructor; apply Hg.
    + left. reflexivity.
  - cbn [snd]. apply keeps_quiet. repeat split. exists [].
    cbn [events set_entropy]. rewrite app_nil_r. split; reflexivity.
Qed.

Lemma keeps_serve (r : Request) (s : State) :
  elsewhere (configPath s) r -> keeps s (snd (serve r s)).
Proof.
  destruct r; cbn [serve elsewhere]; intros He.
  - apply keeping_addConfig.
  - apply keeping_updateConfig.
  - apply keeping_removeConfig.
  - apply keeping_init.
  - apply keeps_exportToFile, He.
  - apply (keeping_bind (importFromFile filePath decryptionPassword)
             (fun _ => ret tt));
      [apply keeping_importFromFile | intros; apply keeping_ret].
Qed.

(** X21: the metadata file never holds a password, whatever the store is
    asked to do: over every sequence of add, update, remove, init, export
    and import requests, from every state, failed requests included, with
    no export aimed at the metadata path itself, every write that reaches
    the host has mode 0600, every write to the metadata path carries the
    serialisation of entries whose password is the empty string, and the
    metadata file is as it was before or holds such a text. *)
Theorem store_guards_metadata (rs : list Request) (s : State) :
  Forall (elsewhere (configPath s)) rs ->
  Forall (guarded (configPath s)) (since s (serve_all rs s))
  /\ (files (serve_all rs s) !! configPath s = files s !! configPath s
      \/ exists text,
           stripped text
           /\ files (serve_all rs s) !! configPath s = Some (Utf8.encode text)).
Proof.
  intros Hrs.
  assert (K : keeps s (serve_all rs s)).
  { revert s Hrs. induction rs as [|r rs IH]; intros s Hrs; [apply keeps_refl|].
    cbn [serve_all]. apply Forall_cons in Hrs. destruct Hrs as [Hr Hrs].
    pose proof (keeps_serve r s Hr) as K1.
    eapply keeps_trans; [exact K1|]. apply IH.
    destruct K1 as (-> & _). exact Hrs. }
  destruct K as (_ & (evs & He & Hg) & Hf).
  split; [|exact Hf]. rewrite (since_app _ _ _ He). exact Hg.
Qed.

End Guard.

(** ** The vault helper *)

Section Vault.


End Vault.

(** ** The shape of a seal *)

Section Seal.
Context {rt : Runtime} {laws : RuntimeLaws rt}.

(** X23: [encrypt] returns what its comment says, whatever the plaintext
    and the password: the prefix, then three base64 pieces between colons;
    the first two decode to the 16-octet salt and vector read from the
    entropy tape; every code unit is ASCII; and [decrypt], with whatever
    password, never rejects it as malformed. *)
Theorem seal_has_documented_shape (data password : jsstring) (e : Entropy) :
  exists text saltB64 ivB64 encryptedB64,
    fst (encrypt data password e) = Return text
    /\ text = MSG_PREFIX ++ saltB64 ++ [COLON] ++ ivB64 ++ [COLON] ++ encryptedB64
    /\ parts_of text = [saltB64; ivB64; encryptedB64]
    /\ Base64.decode saltB64 = fst (randomBytes SALT_LEN e)
    /\ Base64.decode ivB64
       = fst (randomBytes IV_LEN (snd (randomBytes SALT_LEN e)))
    /\ length (Base64.decode saltB64) = SALT_LEN
    /\ length (Base64.decode ivB64) = IV_LEN
    /\ Forall (fun u => u < 128) text
    /\ forall other, decrypt text other <> Throw Invalid_encrypted_format.
Proof.
  destruct (seal_then_open data password e) as (c & Hs & _).
  exists (envelope (fst (nonce e)) (snd (nonce e)) c),
    (Base64.encode (fst (nonce e))), (Base64.encode (snd (nonce e))),
    (Base64.encode c).
  split; [exact Hs|]. split; [reflexivity|].
  split; [apply parts_of_envelope|].
  rewrite !Base64Facts.base64_roundtrip.
  do 2 (split; [reflexivity|]).
  destruct (nonce_lengths e) as [Hl1 Hl2].
  do 2 (split; [assumption|]). split.
  - unfold envelope.
    apply Forall_app; split; [repeat constructor|].
    apply Forall_app; split; [apply Base64Facts.base64_ascii|].
    apply Forall_app; split; [repeat constructor|].
    apply Forall_app; split; [apply Base64Facts.base64_ascii|].
    apply Forall_app; split;
      [repeat constructor | apply Base64Facts.base64_ascii].
  - intros other. rewrite decrypt_envelope.
    destruct (decipher _ _ _ _) as [d|e'] eqn:Hd; cbn [bind]; [discriminate|].
    destruct (decipher_throws _ _ _ _ _ Hd) as [m ->]. discriminate.
Qed.

End Seal.

(** ** The helpers of the settings menu *)

Section Settings.
Context {rt : Runtime}.

Lemma endsWith_app (p suffix : jsstring) : endsWith (p ++ suffix) suffix = true.
Proof.
  unfold endsWith. rewrite length_app.
  replace (length p + length suffix - length suffix)%nat with (length p) by lia.
  rewrite drop_app_length. apply jsstring_eqb_refl.
Qed.

Lemma startsWith_self (s : jsstring) : startsWith s s = true.
Proof. rewrite <- (app_nil_r s) at 1. apply startsWith_app. Qed.

(** X24: the name a sealed export is written under: it ends in [.enc],
    starts with the name that was asked for, is that very name when it
    ended in [.enc] already, is not changed by a second pass, and passes
    the filter of the import menu. *)
Theorem sealed_export_name (path : jsstring) :
  endsWith (ensureEncExtension path) (js ".enc") = true
  /\ startsWith (ensureEncExtension path) path = true
  /\ (endsWith path (js ".enc") = true <-> ensureEncExtension path = path)
  /\ ensureEncExtension (ensureEncExtension path) = ensureEncExtension path
  /\ listed (ensureEncExtension path) = true.
Proof.
  assert (H1 : endsWith (ensureEncExtension path) (js ".enc") = true).
  { unfold ensureEncExtension.
    destruct (endsWith path (js ".enc")) eqn:E; [exact E | apply endsWith_app]. }
  split; [exact H1|]. split; [|split; [|split]].
  - unfold ensureEncExtension. destruct (endsWith path (js ".enc"));
      [apply startsWith_self | apply startsWith_app].
  - unfold ensureEncExtension. destruct (endsWith path (js ".enc")) eqn:E;
      split; try reflexivity; try discriminate.
    intros H. apply (f_equal (@length N)) in H. rewrite length_app in H.
    cbn [length js] in H. lia.
  - unfold ensureEncExtension at 1. rewrite H1. reflexivity.
  - unfold listed. rewrite H1. apply orb_true_r.
Qed.

Lemma traverse_throws {A B} (f : A -> Completion B) (l : list A) (e : Exn) :
  traverse f l = Throw e -> exists a, In a l /\ f a = Throw e.
Proof.
  induction l as [|a l IH]; [discriminate|].
  cbn [traverse]. destruct (f a) as [b|e1] eqn:Ha; cbn [bind].
  - destruct (traverse f l) as [bs|e2]; cbn [bind]; [discriminate|].
    intros [= <-]. destruct (IH eq_refl) as (x & Hx & Hfx).
    exists x. split; [right; exact Hx | exact Hfx].
  - intros [= <-]. exists a. split; [left; reflexivity | exact Ha].
Qed.

Lemma ConfigFileSchema_throws (value : JsValue) (e : Exn) :
  parse ConfigFileSchema value = Throw e -> e = ZodError.
Proof.
  unfold parse, ConfigFileSchema, z.array.
  destruct value as [| | | |items|]; try (intros [= <-]; reflexivity).
  intros Ht. apply traverse_throws in Ht. destruct Ht as (x & _ & Hx).
  apply (DbConfigSchema_throws x), Hx.
Qed.

Lemma connections_of_throws (parsed : JsValue) (e : Exn) :
  connections_of parsed = Throw e -> exists m, e = TypeError m.
Proof.
  unfold connections_of, get_property.
  destruct parsed; cbn [bind]; try discriminate.
  intros [= <-]. eexists. reflexivity.
Qed.

(** X25: which failures of an import the menu takes for a sealed file:
    with no password given, a file that does not parse and starts with the
    sealed prefix fails with an error that [isEncryptedError] accepts;
    with a password given, no failure of the import is one it accepts, so
    the retry with a password is never taken for a sealed file again. *)
Theorem encrypted_error_means_password_needed
    (filePath : jsstring) (pw : option jsstring) (s : State) (e : Exn) :
  fst (importFromFile filePath pw s) = Throw e ->
  (supplied pw = true -> isEncryptedError e = false)
  /\ (supplied pw = false ->
      forall b e0,
        files s !! filePath = Some b ->
        JSON_parse (Utf8.decode b) = Throw e0 ->
        startsWith (Utf8.decode b) MSG_PREFIX = true ->
        isEncryptedError e = true).
Proof.
  intros He. rewrite importFromFile_eq in He. split.
  - intros Hp. destruct (files s !! filePath) as [b|];
      [|cbn in He; injection He as <-; reflexivity].
    unfold mbind, lift in He.
    destruct (parse_file (Utf8.decode b) pw) as [parsed|e1] eqn:Hf.
    + destruct (connections_of parsed) as [connections|e2] eqn:Hc.
      * destruct (parse ConfigFileSchema connections) as [validated|e3] eqn:Hv.
        { destruct (merge_spec validated s) as (Hr & _). cbn zeta in Hr.
          rewrite Hr in He. discriminate He. }
        cbn [fst] in He. injection He as <-.
        apply ConfigFileSchema_throws in Hv. subst e3. reflexivity.
      * cbn [fst] in He. injection He as <-.
        apply connections_of_throws in Hc. destruct Hc as [m ->]. reflexivity.
    + cbn [fst] in He. injection He as <-.
      unfold parse_file, supplied in Hf, Hp.
      destruct (JSON_parse (Utf8.decode b)); [discriminate Hf|].
      destruct pw as [p|]; [|discriminate Hp]. rewrite Hp in Hf.
      destruct (bind (decrypt (Utf8.decode b) p) JSON_parse);
        [discriminate Hf|]. injection Hf as <-. reflexivity.
  - intros Hp b e0 Hf Hj Hs. rewrite Hf in He. unfold mbind, lift in He.
    assert (E : parse_file (Utf8.decode b) pw = Throw EncryptedFileError_new).
    { unfold parse_file, supplied in *. rewrite Hj, Hs.
      destruct pw as [p|]; [rewrite Hp|]; reflexivity. }
    rewrite E in He. cbn [fst] in He. injection He as <-. reflexivity.
Qed.

End Settings.

(** ** Names of databases *)

Section Names.
Import Validations.

Lemma forallb_name_unit (name_ : jsstring) :
  forallb name_unit name_ = true <-> Forall (fun c => name_unit c = true) name_.
Proof. rewrite forallb_forall, List.Forall_forall. reflexivity. Qed.

(** X26: [assertValidDbName] returns exactly for the non-empty names made
    of ASCII letters, digits, underscores and hyphens; for every other
    name it throws a [ValidationError] with a message that is not empty:
    the guard [if (result)] never lets a rejected name through. A name
    that passes holds no double quote, so it cannot end the quoted
    identifier it is put into. *)
Theorem db_name_accepted_iff (name_ : jsstring) :
  (assertValidDbName name_ = inr tt
   <-> name_ <> [] /\ Forall (fun c => name_unit c = true) name_)
  /\ (assertValidDbName name_ <> inr tt ->
      exists message,
        assertValidDbName name_ = inl (ValidationError message)
        /\ message <> [])
  /\ (assertValidDbName name_ = inr tt -> ~ In 34%N name_).
Proof.
  assert (A : assertValidDbName name_ = inr tt
              <-> name_ <> [] /\ Forall (fun c => name_unit c = true) name_).
  { rewrite <- forallb_name_unit.
    unfold assertValidDbName, zodValidate, DbNameSchema, chain, min, check,
      name_regex.
    destruct name_ as [|c r].
    - cbn. split; [discriminate | intros [H _]; congruence].
    - cbn [length Nat.ltb Nat.leb app jsstring_eqb negb andb].
      destruct (forallb name_unit (c :: r)); cbn.
      + split; [intros _; split; [discriminate | reflexivity] | reflexivity].
      + split; [discriminate | intros [_ H]; discriminate H]. }
  split; [exact A|]. split.
  - unfold assertValidDbName, zodValidate, DbNameSchema, chain, min, check,
      name_regex.
    destruct name_ as [|c r].
    + intros _. eexists. split; [reflexivity | discriminate].
    + cbn [length Nat.ltb Nat.leb app jsstring_eqb negb andb].
      destruct (forallb name_unit (c :: r)); cbn.
      * intros H. exfalso. apply H. reflexivity.
      * intros _. eexists. split; [reflexivity | discriminate].
  - intros H. apply A in H. destruct H as [_ H]. intros Hin.
    rewrite List.Forall_forall in H. specialize (H _ Hin). discriminate H.
Qed.

Lemma includes_In (c : N) (val : jsstring) : includes c val = true <-> In c val.
Proof.
  unfold includes. rewrite existsb_exists. split.
  - intros (x & Hx & E). apply N.eqb_eq in E. subst x. exact Hx.
  - intros H. exists c. split; [exact H | apply N.eqb_refl].
Qed.

Lemma includes_not_In (c : N) (val : jsstring) :
  includes c val = false <-> ~ In c val.
Proof.
  rewrite <- includes_In. destruct (includes c val); split; congruence.
Qed.

(** X27: which names the prompt for a dump file lets through, and what it
    answers otherwise: [zodValidate(FilenameSchema, f)] is [undefined]
    exactly for the non-empty names with no slash, no backslash and none
    of the reserved characters, so an accepted name has no directory part;
    an empty name gets the first message, a name with a path separator the
    second whatever else is wrong with it, and only a name without one the
    third. *)
Theorem filename_accepted_iff (f : jsstring) :
  (zodValidate FilenameSchema f = None
   <-> f <> [] /\ ~ In 47%N f /\ ~ In 92%N f
       /\ Forall (fun c => reserved_unit c = false) f)
  /\ (f = [] -> zodValidate FilenameSchema f = Some (js "Filename is required"))
  /\ (f <> [] -> In 47%N f \/ In 92%N f ->
      zodValidate FilenameSchema f
      = Some (js "Filename cannot contain path separators (/ or \). Please use simple filenames only."))
  /\ (~ In 47%N f -> ~ In 92%N f -> Exists (fun c => reserved_unit c = true) f ->
      zodValidate FilenameSchema f = Some (js "Filename contains invalid characters.")).
Proof.
  assert (R : existsb reserved_unit f = false
              <-> Forall (fun c => reserved_unit c = false) f).
  { rewrite List.Forall_forall. split.
    - intros H c Hc. destruct (reserved_unit c) eqn:E; [|reflexivity].
      assert (existsb reserved_unit f = true)
        by (apply existsb_exists; exists c; split; assumption).
      congruence.
    - intros H. destruct (existsb reserved_unit f) eqn:E; [|reflexivity].
      apply existsb_exists in E. destruct E as (c & Hc & E).
      rewrite (H c Hc) in E. discriminate E. }
  rewrite <- !includes_not_In, <- !includes_In, <- R.
  unfold zodValidate, FilenameSchema, chain, min, check.
  destruct f as [|c r].
  - cbn. split; [split; [discriminate | intros (H & _); congruence]|].
    split; [reflexivity|]. split; [congruence|].
    intros _ _ H. apply List.Exists_exists in H. destruct H as (x & [] & _).
  - cbn [length Nat.ltb Nat.leb app].
    destruct (includes 47 (c :: r)), (includes 92 (c :: r));
      cbn [negb andb app];
      try (split; [split; [discriminate | intros (_ & H1 & H2 & _); congruence]|];
           split; [discriminate|]; split; [reflexivity|]; congruence).
    destruct (existsb reserved_unit (c :: r)) eqn:E; cbn [negb app].
    + split; [split; [discriminate | intros (_ & _ & _ & H); discriminate H]|].
      split; [discriminate|]. split; [intros _ [H|H]; discriminate H|].
      reflexivity.
    + split; [split; [intros _; repeat split; discriminate | reflexivity]|].
      split; [discriminate|]. split; [intros _ [H|H]; discriminate H|].
      intros _ _ H. apply List.Exists_exists in H. destruct H as (x & Hx & Hr).
      assert (existsb reserved_unit (c :: r) = true)
        by (apply existsb_exists; exists x; split; assumption).
      congruence.
Qed.

End Names.

(** ** The handlers of the settings menu *)

Section MenuMore.
Context {rt : Runtime}.











End MenuMore.

Section MenuLaws.
Context {rt : Runtime} {laws : RuntimeLaws rt}.


End MenuLaws.

(** ** Runs of the further properties on the small runtime *)




Lemma update_unknown_is_noop_witness :
  updateConfig (rt := Small.runtime) (testConfig (js "a") (js "X") (js "s3cr3t")) blank
  = (Return tt, blank).
Proof.
  apply (@update_unknown_is_noop Small.runtime). reflexivity.
Defined.


Lemma import_all_or_nothing_witness :
  let s := host_with_file (js "settings.enc") (js "ENC:c2FsdA==:aXY=:ZGF0YQ==") [] in
  snd (importFromFile (rt := Small.runtime) (js "settings.enc") None s) = s.
Proof.
  intros s.
  apply (@import_all_or_nothing Small.runtime (js "settings.enc") None s
           EncryptedFileError_new).
  vm_compute. reflexivity.
Defined.

Lemma import_keeps_ids_unique_witness :
  let a0 := testConfig (js "a") (js "Mine") (js "s3cr3t") in
  let a1 := testConfig (js "a") (js "Theirs") (js "other") in
  let b1 := testConfig (js "b") (js "New") (js "hunter2") in
  let text := @JSON_stringify Small.runtime (JArr [toJs a1; toJs b1; toJs b1]) 2 in
  let s := host_with_file (js "in.json") text [a0] in
  NoDup (map id (configs (snd (importFromFile (rt := Small.runtime)
                                 (js "in.json") None s)))).
Proof.
  intros a0 a1 b1 text s.
  apply (@import_keeps_ids_unique Small.runtime (js "in.json") None s).
  apply (bool_decide_unpack _). vm_compute. exact I.
Defined.

Lemma import_twice_adds_nothing_witness :
  let a0 := testConfig (js "a") (js "Mine") (js "s3cr3t") in
  let b1 := testConfig (js "b") (js "New") (js "hunter2") in
  let text := @JSON_stringify Small.runtime (JArr [toJs a0; toJs b1]) 2 in
  let s := host_with_file (js "in.json") text [a0] in
  let s' := snd (importFromFile (rt := Small.runtime) (js "in.json") None s) in
  importFromFile (rt := Small.runtime) (js "in.json") None s' = (Return 0%nat, s').
Proof.
  intros a0 b1 text s s'.
  apply (@import_twice_adds_nothing Small.runtime (js "in.json") None s 1%nat).
  - vm_compute. discriminate.
  - vm_compute. reflexivity.
Defined.

Lemma import_rejects_whole_batch_witness :
  let b1 := testConfig (js "b") (js "New") (js "hunter2") in
  let bad := JObj [ (js "id", JStr (js "x")); (js "name", JStr (js "No host")) ] in
  let text := @JSON_stringify Small.runtime (JArr [toJs b1; bad]) 2 in
  let s := host_with_file (js "in.json") text [] in
  importFromFile (rt := Small.runtime) (js "in.json") None s = (Throw ZodError, s).
Proof.
  intros b1 bad text s.
  apply (@import_rejects_whole_batch Small.runtime (js "in.json") None s
           (Utf8.encode text) (JArr [toJs b1; bad]) [toJs b1; bad] bad).
  - vm_compute. reflexivity.
  - vm_compute. reflexivity.
  - reflexivity.
  - right. left. reflexivity.
  - intros c. vm_compute. discriminate.
Defined.

Lemma import_with_password_fails_alike_witness :
  let s := host_with_file (js "notes.json") (js "not a config") [] in
  importFromFile (rt := Small.runtime) (js "notes.json") (Some (js "hunter2")) s
  = (Throw (Error (js "Invalid password or corrupted file")), s).
Proof.
  intros s.
  apply (@import_with_password_fails_alike Small.runtime (js "notes.json")
           (js "hunter2") s (Utf8.encode (js "not a config"))
           (SyntaxError (js "Unexpected token"))).
  - vm_compute. reflexivity.
  - vm_compute. reflexivity.
  - reflexivity.
  - left. vm_compute. reflexivity.
Defined.

Lemma import_of_json_ignores_password_witness :
  let b1 := testConfig (js "b") (js "New") (js "hunter2") in
  let text := @JSON_stringify Small.runtime (JArr [toJs b1]) 2 in
  let s := host_with_file (js "in.json") text [] in
  importFromFile (rt := Small.runtime) (js "in.json") (Some (js "unused")) s
  = importFromFile (rt := Small.runtime) (js "in.json") None s.
Proof.
  intros b1 text s.
  apply (@import_of_json_ignores_password Small.runtime (js "in.json")
           (Some (js "unused")) s (Utf8.encode text) (JArr [toJs b1])).
  - vm_compute. reflexivity.
  - vm_compute. reflexivity.
Defined.

Lemma plain_export_then_import_witness :
  let a1 := testConfig (js "a") (js "X") (js "s3cr3t") in
  let b1 := testConfig (js "b") (js "Y") (js "other") in
  let s := set_configs [a1; b1] blank in
  let s' := snd (exportToFile (rt := Small.runtime) (js "backup.json") None false s) in
  let t := set_configs [] s' in
  fst (importFromFile (rt := Small.runtime) (js "backup.json") None t)
  = Return 2%nat
  /\ configs (snd (importFromFile (rt := Small.runtime) (js "backup.json") None t))
     = [strip a1; strip b1].
Proof.
  intros a1 b1 s s' t.
  destruct (@plain_export_then_import Small.runtime SmallFacts.laws
              (js "backup.json") None None false s t)
    as (_ & _ & Hr & Hc).
  - reflexivity.
  - reflexivity.
  - apply (bool_decide_unpack _). vm_compute. exact I.
  - intros c Hc. reflexivity.
  - reflexivity.
  - split; [exact Hr | exact Hc].
Defined.




Lemma store_guards_metadata_witness :
  let a := testConfig (js "a") (js "X") (js "s3cr3t") in
  let rs := [ ReqAdd (toJs a); ReqExport (js "backup.json") None true;
              ReqRemove (js "a"); ReqImport (js "backup.json") None;
              ReqUpdate (testConfig (js "a") (js "Renamed") (js "hunter2"));
              ReqInit ] in
  Forall (guarded (rt := Small.runtime) (configPath blank))
    (since blank (serve_all (rt := Small.runtime) rs blank)).
Proof.
  intros a rs.
  apply (@store_guards_metadata Small.runtime rs blank).
  unfold rs.
  repeat (constructor; [first [exact I | vm_compute; discriminate]|]).
  constructor.
Defined.

Lemma seal_has_documented_shape_witness :
  exists text saltB64 ivB64 encryptedB64,
    fst (encrypt (rt := Small.runtime) (js "sensitive data")
           (js "test-password-123") (fun _ => zero)) = Return text
    /\ text = MSG_PREFIX ++ saltB64 ++ [COLON] ++ ivB64 ++ [COLON] ++ encryptedB64
    /\ parts_of text = [saltB64; ivB64; encryptedB64]
    /\ Base64.decode saltB64 = fst (randomBytes SALT_LEN (fun _ => zero))
    /\ Base64.decode ivB64
       = fst (randomBytes IV_LEN (snd (randomBytes SALT_LEN (fun _ => zero))))
    /\ length (Base64.decode saltB64) = SALT_LEN
    /\ length (Base64.decode ivB64) = IV_LEN
    /\ Forall (fun u => u < 128) text
    /\ forall other,
         decrypt (rt := Small.runtime) text other <> Throw Invalid_encrypted_format.
Proof.
  exact (@seal_has_documented_shape Small.runtime SmallFacts.laws
           (js "sensitive data") (js "test-password-123") (fun _ => zero)).
Defined.

Lemma encrypted_error_means_password_needed_witness :
  let s := host_with_file (js "settings.enc") (js "ENC:c2FsdA==:aXY=:ZGF0YQ==") [] in
  fst (importFromFile (rt := Small.runtime) (js "settings.enc") None s)
  = Throw EncryptedFileError_new
  /\ isEncryptedError EncryptedFileError_new = true.
Proof.
  intros s.
  assert (H : fst (importFromFile (rt := Small.runtime) (js "settings.enc") None s)
              = Throw EncryptedFileError_new) by (vm_compute; reflexivity).
  split; [exact H|].
  exact (proj2 (@encrypted_error_means_password_needed Small.runtime
                  (js "settings.enc") None s EncryptedFileError_new H)
           eq_refl (Utf8.encode (js "ENC:c2FsdA==:aXY=:ZGF0YQ=="))
           (SyntaxError (js "Unexpected token"))
           ltac:(vm_compute; reflexivity) ltac:(vm_compute; reflexivity)
           ltac:(vm_compute; reflexivity)).
Defined.


